(** * ApiStudio backend: the request proxy and its history store

    A shallow embedding of [server.js]: the handler of [POST /api/request]
    (body-encoding dispatch, outbound call, outcome normalisation,
    persistence) and the history endpoints, followed by the properties the
    specification states about them.

    Conventions of the model.
    - A JavaScript string is a sequence of 16-bit code units; the model uses
      Rocq strings, i.e. the code units below 256.
    - A JavaScript number is modelled by an integer ([Z]).
    - [axios], [Date.now], the ObjectId cast of the store driver and the two
      [JSON] builtins are collaborators of the handler: the handlers are
      written over them as section variables, and module [JSON] below gives
      the [JSON] builtins a concrete definition on the modelled fragment.
    - Exceptions and the mutable store are threaded by a state-and-error
      monad [M]. *)

From Stdlib Require Import ZArith String Ascii List Bool Lia.
From Stdlib Require DecimalPos DecimalFacts.
From stdpp Require Import gmap strings list fin_maps sorting.

Open Scope string_scope.
Open Scope list_scope.
Open Scope Z_scope.

Set Warnings "-register-all".

(** ** Values *)

(** What a parsed JSON text can be. *)
Inductive value : Type :=
| VNull
| VBool (b : bool)
| VNum (n : Z)
| VStr (s : string)
| VArr (items : list value)
| VObj (fields : list (string * value)).

(** [typeof v === 'object']: true of [null], arrays and objects. *)
Definition typeof_object (v : value) : bool :=
  match v with
  | VNull | VArr _ | VObj _ => true
  | VBool _ | VNum _ | VStr _ => false
  end.

(** Truthiness, as [?:] and [||] test it. *)
Definition truthy (v : value) : bool :=
  match v with
  | VNull => false
  | VBool b => b
  | VNum n => negb (n =? 0)
  | VStr s => negb (String.eqb s "")
  | VArr _ | VObj _ => true
  end.

Definition nonempty (s : string) : bool := negb (String.eqb s "").

(** [a || b] on strings. *)
Definition str_or (a b : string) : string := if nonempty a then a else b.

(** [String.prototype.toLowerCase] on code units below 256: A-Z and the
    Latin-1 capitals (0xC0-0xDE except the multiplication sign 0xD7). *)
Definition lower_char (c : ascii) : ascii :=
  let n := N_of_ascii c in
  if ((65 <=? n) && (n <=? 90))%N then ascii_of_N (n + 32)
  else if ((192 <=? n) && (n <=? 222) && negb (n =? 215))%N then ascii_of_N (n + 32)
  else c.

Fixpoint toLowerCase (s : string) : string :=
  match s with
  | EmptyString => EmptyString
  | String c s' => String (lower_char c) (toLowerCase s')
  end.

(** [Array.prototype.includes] on an array of strings. *)
Definition includes (l : list string) (s : string) : bool :=
  existsb (String.eqb s) l.

(** ** Data model *)

(** The fields destructured from [req.body]; [None] is [undefined]. *)
Record description := {
  req_method : option string;
  req_url : option string;
  req_headers : option (gmap string string);
  req_body : option string;
  req_bodyType : option string
}.

(** The axios request configuration.  [validateStatus: () => true] is a
    constant of the configuration: with it axios resolves on every status
    code, which is what [axios_result] below stands for. *)
Record config := {
  cfg_method : string;
  cfg_url : option string;
  cfg_headers : gmap string string;
  cfg_timeout : Z;
  cfg_data : option value
}.

(** An HTTP response as axios delivers it. *)
Record response := {
  rsp_status : Z;
  rsp_statusText : string;
  rsp_headers : gmap string string;
  rsp_data : value
}.

(** A thrown error: its [message] and, for some axios errors, the
    [response] it carries. *)
Record error := {
  message : string;
  err_response : option response
}.

Inductive axios_result :=
| Resolved (r : response)
| Rejected (e : error).

(** [responseData] / [errorResponse]. *)
Record outcome := {
  status : Z;
  statusText : string;
  headers : gmap string string;
  data : value;
  time : Z
}.

(** A [RequestHistory] document (schema of lines 23-37).  [_id] is the
    ObjectId, modelled by its 96-bit value. *)
Record document := {
  _id : N;
  method : option string;
  url : option string;
  doc_headers : gmap string string;
  body : string;
  bodyType : string;
  doc_response : outcome;
  createdAt : Z
}.

(** What a handler sends back: the HTTP status and the JSON body. *)
Inductive reply_body :=
| ExecOk (response : outcome) (historyId : N)
| ExecFail (response : outcome) (error : string)
| HistoryList (history : list document)
| HistoryOne (request : document)
| Done (msg : string)
| Failure (error : string).

Definition success (b : reply_body) : bool :=
  match b with
  | ExecOk _ _ | HistoryList _ | HistoryOne _ | Done _ => true
  | ExecFail _ _ | Failure _ => false
  end.

Record reply := { code : Z; payload : reply_body }.

(** ** The world and the monad *)

(** The mutable state around a handler: the collection, whether the store
    rejects operations ([db_error]), the number of clock readings taken, the
    ObjectId supply, and the log of configurations handed to axios. *)
Record world := {
  store : list document;
  db_error : option string;
  ticks : nat;
  next_id : N;
  sent : list config
}.

Definition M (A : Type) : Type := world -> (error + A) * world.

Definition ret {A} (a : A) : M A := fun w => (inr a, w).
Definition throw {A} (e : error) : M A := fun w => (inl e, w).
Definition bind {A B} (m : M A) (k : A -> M B) : M B :=
  fun w => match m w with
           | (inr a, w') => k a w'
           | (inl e, w') => (inl e, w')
           end.
(** [try { m } catch (error) { h error }] *)
Definition try_catch {A} (m : M A) (h : error -> M A) : M A :=
  fun w => match m w with
           | (inr a, w') => (inr a, w')
           | (inl e, w') => h e w'
           end.

Notation "'do' x <- m ; k" := (bind m (fun x => k))
  (at level 10, x name, m at level 100, k at level 200).
Notation "m ;; k" := (bind m (fun _ => k))
  (at level 100, k at level 200, right associativity).

Definition plain_error (msg : string) : error :=
  {| message := msg; err_response := None |}.

(** The errors the handlers meet.  Their texts stand for the messages of
    the engine and of the store library, which the statements below leave
    open. *)
Definition TypeError_toLowerCase : error :=
  plain_error "Cannot read properties of undefined (reading 'toLowerCase')".
Definition DataCastError : error :=
  plain_error "RequestHistory validation failed: response.data: Cast to string failed".
Definition ValidationError (path : string) : error :=
  plain_error ("RequestHistory validation failed: " +:+ path +:+ ": Path `"
               +:+ path +:+ "` is required.").
Definition CastError (id : string) : error :=
  plain_error ("Cast to ObjectId failed for value " +:+ id +:+ " at path _id").

(** ** The handlers *)

Section Server.

(** [JSON.parse]: [None] when it throws. *)
Variable JSON_parse : string -> option value.
(** [fun v => JSON.stringify(v, null, 2)]. *)
Variable JSON_stringify : value -> string.
(** The outbound call: what [await axios(config)] comes to. *)
Variable axios : config -> axios_result.
(** The successive readings of [Date.now()]. *)
Variable clock : nat -> Z.
(** The driver's cast of a path parameter to an ObjectId; [None] when it
    throws a CastError. *)
Variable cast_id : string -> option N.

Definition Date_now : M Z :=
  fun w => (inr (clock (ticks w)),
            {| store := store w; db_error := db_error w; ticks := S (ticks w);
               next_id := next_id w; sent := sent w |}).

(** [await axios(config)]: the call is logged, then resolves or throws. *)
Definition await_axios (c : config) : M response :=
  fun w =>
    let w' := {| store := store w; db_error := db_error w; ticks := ticks w;
                 next_id := next_id w; sent := sent w ++ [c] |} in
    match axios c with
    | Resolved r => (inr r, w')
    | Rejected e => (inl e, w')
    end.

(** [method.toLowerCase()], a TypeError when [method] is undefined. *)
Definition method_toLowerCase (m : option string) : M string :=
  match m with
  | Some s => ret (toLowerCase s)
  | None => throw TypeError_toLowerCase
  end.

(** [bodyType === s]. *)
Definition bodyType_is (d : description) (s : string) : bool :=
  match req_bodyType d with
  | Some t => String.eqb t s
  | None => false
  end.

(** Lines 64-81: the body is added to the configuration according to
    [bodyType].  [body] is truthy when it is a non-empty string. *)
Definition add_body (d : description) (c : config) : config :=
  match req_body d with
  | Some b =>
      if includes ["post"; "put"; "patch"] (cfg_method c) && nonempty b then
        if bodyType_is d "raw" then
          match JSON_parse b with
          | Some v =>
              {| cfg_method := cfg_method c; cfg_url := cfg_url c;
                 cfg_headers :=
                   <["Content-Type" :=
                       str_or (default "" (cfg_headers c !! "Content-Type"))
                              "application/json"]> (cfg_headers c);
                 cfg_timeout := cfg_timeout c; cfg_data := Some v |}
          | None =>
              {| cfg_method := cfg_method c; cfg_url := cfg_url c;
                 cfg_headers := cfg_headers c;
                 cfg_timeout := cfg_timeout c; cfg_data := Some (VStr b) |}
          end
        else if bodyType_is d "form-data" then
          {| cfg_method := cfg_method c; cfg_url := cfg_url c;
             cfg_headers := <["Content-Type" := "multipart/form-data"]> (cfg_headers c);
             cfg_timeout := cfg_timeout c; cfg_data := Some (VStr b) |}
        else if bodyType_is d "urlencoded" then
          {| cfg_method := cfg_method c; cfg_url := cfg_url c;
             cfg_headers :=
               <["Content-Type" := "application/x-www-form-urlencoded"]> (cfg_headers c);
             cfg_timeout := cfg_timeout c; cfg_data := Some (VStr b) |}
        else c
      else c
  | None => c
  end.

(** Lines 56-81: the configuration handed to axios. *)
Definition prepare (d : description) (method_lc : string) : config :=
  add_body d {| cfg_method := method_lc; cfg_url := req_url d;
                cfg_headers := default ∅ (req_headers d);
                cfg_timeout := 30000; cfg_data := None |}.

(** Line 92 and lines 122-124. *)
Definition normalize (v : value) : value :=
  if typeof_object v then VStr (JSON_stringify v) else v.

(** Lines 88-94. *)
Definition responseData (r : response) (timeTaken : Z) : outcome :=
  {| status := rsp_status r; statusText := rsp_statusText r;
     headers := rsp_headers r; data := normalize (rsp_data r);
     time := timeTaken |}.

(** Lines 117-127. *)
Definition errorResponse (e : error) (timeTaken : Z) : outcome :=
  match err_response e with
  | Some r =>
      {| status := rsp_status r;
         statusText := str_or (rsp_statusText r) (message e);
         headers := rsp_headers r;
         data := if truthy (rsp_data r) then normalize (rsp_data r)
                 else VStr (message e);
         time := timeTaken |}
  | None =>
      {| status := 0; statusText := message e; headers := ∅;
         data := VStr (message e); time := timeTaken |}
  end.

(** The cast of the schema type String ([data: String], line 33): null
    and strings are kept, a number or a boolean becomes its text, an object
    with a non-empty string [_id] becomes that string; an array or any other
    object fails the cast and is kept here as it is, for [save] to reject
    the document.  The text [toString] gives a number is the text
    [JSON.stringify] gives it. *)
Definition schema_String (v : value) : value :=
  match v with
  | VNull | VStr _ | VArr _ => v
  | VBool true => VStr "true"
  | VBool false => VStr "false"
  | VNum _ => VStr (JSON_stringify v)
  | VObj fields =>
      match find (fun kv => String.eqb (fst kv) "_id") fields with
      | Some (_, VStr s) => if nonempty s then VStr s else v
      | _ => v
      end
  end.

(** What is left of a failed cast to String. *)
Definition cast_failed (v : value) : bool :=
  match v with
  | VArr _ | VObj _ => true
  | _ => false
  end.

(** [response] as the schema of lines 29-35 stores it: the numbers, the
    strings and the headers object as they are, [data] cast to String. *)
Definition stored_outcome (r : outcome) : outcome :=
  {| status := status r; statusText := statusText r; headers := headers r;
     data := schema_String (data r); time := time r |}.

(** [new RequestHistory({method, url, headers, body, bodyType, response})]:
    a fresh ObjectId, the schema defaults for the undefined fields, the
    response cast by the schema, and [createdAt] read from the clock.
    [headers] is the very object [config.headers] was initialised with, so
    when the caller supplied it the document sees the Content-Type the
    dispatch wrote into it. *)
Definition new_RequestHistory (d : description) (c : config) (r : outcome)
  : M document :=
  do now <- Date_now;
  fun w =>
    (inr {| _id := next_id w; method := req_method d; url := req_url d;
            doc_headers := match req_headers d with
                           | Some _ => cfg_headers c
                           | None => ∅
                           end;
            body := default "" (req_body d);
            bodyType := default "raw" (req_bodyType d);
            doc_response := stored_outcome r; createdAt := now |},
     {| store := store w; db_error := db_error w; ticks := ticks w;
        next_id := N.succ (next_id w); sent := sent w |}).

Definition required (path : string) (field : option string) : M unit :=
  match field with
  | Some s => if nonempty s then ret tt else throw (ValidationError path)
  | None => throw (ValidationError path)
  end.

(** Any store operation throws while the store rejects operations. *)
Definition store_ready : M unit :=
  fun w => match db_error w with
           | Some msg => (inl (plain_error msg), w)
           | None => (inr tt, w)
           end.

(** A [data] whose cast to String failed makes the validation fail. *)
Definition cast_checked (doc : document) : M unit :=
  if cast_failed (data (doc_response doc))
  then throw DataCastError
  else ret tt.

(** [historyRecord.save()]: the document is validated (the required paths,
    the casts), then inserted.  The texts of the validation errors stand
    for the library's messages. *)
Definition save (doc : document) : M unit :=
  required "method" (method doc);;
  required "url" (url doc);;
  cast_checked doc;;
  store_ready;;
  fun w => (inr tt, {| store := store w ++ [doc]; db_error := db_error w;
                       ticks := ticks w; next_id := next_id w; sent := sent w |}).

(** [app.post('/api/request', ...)], lines 49-135.  [req.startTime] is
    never assigned, so the catch block reads the clock twice. *)
Definition post_request (d : description) : M reply :=
  try_catch
    (do startTime <- Date_now;
     do method_lc <- method_toLowerCase (req_method d);
     let config := prepare d method_lc in
     do response <- await_axios config;
     do endTime <- Date_now;
     let timeTaken := endTime - startTime in
     let responseData := responseData response timeTaken in
     do historyRecord <- new_RequestHistory d config responseData;
     save historyRecord;;
     ret {| code := 200; payload := ExecOk responseData (_id historyRecord) |})
    (fun error =>
       do t1 <- Date_now;
       do t2 <- Date_now;
       let timeTaken := t1 - t2 in
       ret {| code := 200;
              payload := ExecFail (errorResponse error timeTaken) (message error) |}).

(** What the catch block answers with when [e] is thrown in world [w]
    after one clock reading and with [log] the calls handed to axios. *)
Definition caught (e : error) (w : world) (log : list config)
  : (error + reply) * world :=
  (inr {| code := 200;
          payload := ExecFail (errorResponse e
                                 (clock (1 + ticks w) - clock (2 + ticks w)))
                              (message e) |},
   {| store := store w; db_error := db_error w; ticks := 3 + ticks w;
      next_id := next_id w; sent := log |}).

(** The document the try block builds in world [w], with [r] the response
    as the schema stores it. *)
Definition historyRecord (d : description) (c : config) (r : outcome) (w : world)
  : document :=
  {| _id := next_id w; method := req_method d; url := req_url d;
     doc_headers := match req_headers d with
                    | Some _ => cfg_headers c
                    | None => ∅
                    end;
     body := default "" (req_body d);
     bodyType := default "raw" (req_bodyType d);
     doc_response := r; createdAt := clock (2 + ticks w) |}.

(** [{ createdAt: -1 }]: [a] may come before [b]. *)
Definition newer_first (a b : document) : Prop := createdAt b <= createdAt a.

#[global] Instance newer_first_dec a b : Decision (newer_first a b).
Proof. unfold newer_first. apply _. Defined.

(** [RequestHistory.find().sort({ createdAt: -1 }).limit(50)]. *)
Definition find_sort_limit (n : nat) : M (list document) :=
  store_ready;;
  fun w => (inr (take n (merge_sort newer_first (store w))), w).

(** [app.get('/api/history', ...)], lines 138-154. *)
Definition get_history : M reply :=
  try_catch
    (do history <- find_sort_limit 50;
     ret {| code := 200; payload := HistoryList history |})
    (fun error => ret {| code := 500; payload := Failure (message error) |}).

Definition cast_ObjectId (id : string) : M N :=
  match cast_id id with
  | Some o => ret o
  | None => throw (CastError id)
  end.

Definition has_id (o : N) (doc : document) : bool := (_id doc =? o)%N.

(** [RequestHistory.findById(id)]. *)
Definition findById (id : string) : M (option document) :=
  do o <- cast_ObjectId id;
  store_ready;;
  fun w => (inr (find (has_id o) (store w)), w).

Fixpoint remove_first (o : N) (l : list document) : list document :=
  match l with
  | [] => []
  | doc :: l' => if has_id o doc then l' else doc :: remove_first o l'
  end.

(** [RequestHistory.findByIdAndDelete(id)]. *)
Definition findByIdAndDelete (id : string) : M (option document) :=
  do o <- cast_ObjectId id;
  store_ready;;
  fun w => (inr (find (has_id o) (store w)),
            {| store := remove_first o (store w); db_error := db_error w;
               ticks := ticks w; next_id := next_id w; sent := sent w |}).

(** [app.get('/api/history/:id', ...)], lines 157-178. *)
Definition get_history_id (id : string) : M reply :=
  try_catch
    (do request <- findById id;
     match request with
     | None => ret {| code := 404; payload := Failure "Request not found" |}
     | Some doc => ret {| code := 200; payload := HistoryOne doc |}
     end)
    (fun error => ret {| code := 500; payload := Failure (message error) |}).

(** [app.delete('/api/history/:id', ...)], lines 181-195. *)
Definition delete_history_id (id : string) : M reply :=
  try_catch
    (findByIdAndDelete id;;
     ret {| code := 200; payload := Done "Request deleted from history" |})
    (fun error => ret {| code := 500; payload := Failure (message error) |}).

(** [app.delete('/api/history', ...)], lines 198-212. *)
Definition delete_history : M reply :=
  try_catch
    (store_ready;;
     (fun w => (inr tt, {| store := []; db_error := db_error w; ticks := ticks w;
                           next_id := next_id w; sent := sent w |}));;
     ret {| code := 200; payload := Done "All history cleared" |})
    (fun error => ret {| code := 500; payload := Failure (message error) |}).

End Server.

(** ** The JSON builtins on the modelled fragment

    [JSON.stringify(v, null, space)] and [JSON.parse(text)] for the values
    of type [value].  Numbers are integers, which JavaScript prints in plain
    decimal notation (below 10^21); a number literal with a fraction or an
    exponent and a [\u] escape of a code unit above 255 denote values outside
    the fragment, and [parse] has no result for them.  The order in which
    JavaScript enumerates integer-like keys is not modelled: an object keeps
    its fields in the order of the list. *)

Module JSON.

Definition LF : ascii := "010"%char.
Definition DQ : ascii := "034"%char.

Definition is_ws (c : ascii) : bool :=
  match c with
  | " "%char | "009"%char | "010"%char | "013"%char => true
  | _ => false
  end.

Definition is_digit (c : ascii) : bool :=
  let n := N_of_ascii c in ((48 <=? n) && (n <=? 57))%N.

Definition hex_digit (n : N) : ascii :=
  if (n <? 10)%N then ascii_of_N (48 + n) else ascii_of_N (87 + n).

(** QuoteJSONString, one code unit. *)
Definition escape_char (c : ascii) : string :=
  match c with
  | "034"%char => String "\" (String DQ "")
  | "\"%char => "\\"
  | "008"%char => "\b"
  | "012"%char => "\f"
  | "010"%char => "\n"
  | "013"%char => "\r"
  | "009"%char => "\t"
  | _ =>
      let n := N_of_ascii c in
      if (n <? 32)%N
      then "\u00" +:+ String (hex_digit (n / 16)) (String (hex_digit (n mod 16)) "")
      else String c ""
  end.

Fixpoint escape (s : string) : string :=
  match s with
  | EmptyString => EmptyString
  | String c s' => escape_char c +:+ escape s'
  end.

Definition quote (s : string) : string :=
  String DQ (escape s +:+ String DQ "").

Fixpoint spaces (n : nat) : string :=
  match n with
  | O => ""
  | S n' => String " " (spaces n')
  end.

Fixpoint digits (d : Decimal.uint) : string :=
  match d with
  | Decimal.Nil => ""
  | Decimal.D0 d => String "0" (digits d)
  | Decimal.D1 d => String "1" (digits d)
  | Decimal.D2 d => String "2" (digits d)
  | Decimal.D3 d => String "3" (digits d)
  | Decimal.D4 d => String "4" (digits d)
  | Decimal.D5 d => String "5" (digits d)
  | Decimal.D6 d => String "6" (digits d)
  | Decimal.D7 d => String "7" (digits d)
  | Decimal.D8 d => String "8" (digits d)
  | Decimal.D9 d => String "9" (digits d)
  end.

(** Number::toString on an integer that JavaScript prints in plain decimal
    notation (a safe integer, see [safe_integer] below); beyond those a
    JavaScript number is rounded, and from 10^21 printed with an exponent,
    which this definition does not follow. *)
Definition number_to_string (n : Z) : string :=
  match n with
  | Z0 => "0"
  | Zpos p => digits (Pos.to_uint p)
  | Zneg p => String "-" (digits (Pos.to_uint p))
  end.

Section Pretty.

(** The gap, as a number of spaces ([space] of [JSON.stringify]). *)
Variable gap : nat.

Section Lists.
Variable ind : nat.
(** The printer of the elements, one level deeper. *)
Variable element : value -> string.

(** What follows the first element of an array: the other elements, then
    the closing bracket at the outer indentation. *)
Fixpoint more_elements (l : list value) : string :=
  match l with
  | [] => String LF (spaces ind +:+ "]")
  | x :: l' =>
      String "," (String LF (spaces (gap + ind) +:+ element x +:+ more_elements l'))
  end.

Definition member (kv : string * value) : string :=
  spaces (gap + ind) +:+ quote (fst kv) +:+ ": " +:+ element (snd kv).

Fixpoint more_members (l : list (string * value)) : string :=
  match l with
  | [] => String LF (spaces ind +:+ "}")
  | kv :: l' => String "," (String LF (member kv +:+ more_members l'))
  end.
End Lists.

(** SerializeJSONProperty with a non-empty gap, at indentation [ind]. *)
Fixpoint serialize (ind : nat) (v : value) : string :=
  match v with
  | VNull => "null"
  | VBool true => "true"
  | VBool false => "false"
  | VNum n => number_to_string n
  | VStr s => quote s
  | VArr [] => "[]"
  | VArr (x :: l) =>
      String "[" (String LF (spaces (gap + ind) +:+ serialize (gap + ind) x
                             +:+ more_elements ind (serialize (gap + ind)) l))
  | VObj [] => "{}"
  | VObj (kv :: l) =>
      String "{" (String LF (member ind (serialize (gap + ind)) kv
                             +:+ more_members ind (serialize (gap + ind)) l))
  end.

End Pretty.

(** [JSON.stringify(v, null, space)], [space] between 1 and 10. *)
Definition stringify (v : value) (space : nat) : string := serialize space 0 v.

(** *** Parsing *)

Fixpoint skip_ws (s : string) : string :=
  match s with
  | String c s' => if is_ws c then skip_ws s' else s
  | EmptyString => s
  end.

(** [expect lit s]: [s] without its prefix [lit]. *)
Fixpoint expect (lit s : string) : option string :=
  match lit with
  | EmptyString => Some s
  | String c lit' =>
      match s with
      | String c' s' => if Ascii.eqb c c' then expect lit' s' else None
      | EmptyString => None
      end
  end.

Definition literal (lit : string) (v : value) (s : string)
  : option (value * string) :=
  match expect lit s with
  | Some rest => Some (v, rest)
  | None => None
  end.

Definition hex_value (c : ascii) : option N :=
  let n := N_of_ascii c in
  if ((48 <=? n) && (n <=? 57))%N then Some (n - 48)%N
  else if ((97 <=? n) && (n <=? 102))%N then Some (n - 87)%N
  else if ((65 <=? n) && (n <=? 70))%N then Some (n - 55)%N
  else None.

(** The code unit of [\uXXXX], when it is below 256. *)
Definition unicode_escape (h1 h2 h3 h4 : ascii) : option ascii :=
  match hex_value h1, hex_value h2, hex_value h3, hex_value h4 with
  | Some a, Some b, Some c, Some d =>
      if ((a =? 0) && (b =? 0))%N then Some (ascii_of_N (16 * c + d)) else None
  | _, _, _, _ => None
  end.

Definition cons_char (c : ascii) (r : option (string * string))
  : option (string * string) :=
  match r with
  | Some (s, rest) => Some (String c s, rest)
  | None => None
  end.

(** The characters of a string literal, after the opening quote. *)
Fixpoint parse_chars (s : string) : option (string * string) :=
  match s with
  | EmptyString => None
  | String c s' =>
      if Ascii.eqb c DQ then Some ("", s')
      else if Ascii.eqb c "\" then
        match s' with
        | String "034" r => cons_char DQ (parse_chars r)
        | String "\" r => cons_char "\" (parse_chars r)
        | String "/" r => cons_char "/" (parse_chars r)
        | String "b" r => cons_char "008" (parse_chars r)
        | String "f" r => cons_char "012" (parse_chars r)
        | String "n" r => cons_char "010" (parse_chars r)
        | String "r" r => cons_char "013" (parse_chars r)
        | String "t" r => cons_char "009" (parse_chars r)
        | String "u" (String h1 (String h2 (String h3 (String h4 r)))) =>
            match unicode_escape h1 h2 h3 h4 with
            | Some u => cons_char u (parse_chars r)
            | None => None
            end
        | _ => None
        end
      else if (N_of_ascii c <? 32)%N then None
      else cons_char c (parse_chars s')
  end.

Definition digit_cons (c : ascii) (d : Decimal.uint) : Decimal.uint :=
  match c with
  | "0"%char => Decimal.D0 d
  | "1"%char => Decimal.D1 d
  | "2"%char => Decimal.D2 d
  | "3"%char => Decimal.D3 d
  | "4"%char => Decimal.D4 d
  | "5"%char => Decimal.D5 d
  | "6"%char => Decimal.D6 d
  | "7"%char => Decimal.D7 d
  | "8"%char => Decimal.D8 d
  | _ => Decimal.D9 d
  end.

(** The longest prefix of digits, and what follows it. *)
Fixpoint read_digits (s : string) : Decimal.uint * string :=
  match s with
  | String c s' =>
      if is_digit c
      then let (d, rest) := read_digits s' in (digit_cons c d, rest)
      else (Decimal.Nil, s)
  | EmptyString => (Decimal.Nil, s)
  end.

Definition starts_fraction (s : string) : bool :=
  match s with
  | String "." _ | String "e" _ | String "E" _ => true
  | _ => false
  end.

(** An integer literal: no digit and a leading zero are syntax errors.  A
    literal that goes on with a fraction or an exponent is a number outside
    the fragment: the parser has no result for it, and no statement below
    applies it to such a text. *)
Definition parse_unsigned (s : string) : option (Z * string) :=
  let (d, rest) := read_digits s in
  if starts_fraction rest then None
  else match d with
       | Decimal.Nil => None
       | Decimal.D0 Decimal.Nil => Some (0, rest)
       | Decimal.D0 _ => None
       | _ => Some (Z.of_N (N.of_uint d), rest)
       end.

Definition parse_number (s : string) : option (Z * string) :=
  match s with
  | String "-" s' =>
      match parse_unsigned s' with
      | Some (n, rest) => Some (- n, rest)
      | None => None
      end
  | _ => parse_unsigned s
  end.

Definition with_rest {A B} (f : A -> B) (r : option (A * string))
  : option (B * string) :=
  match r with
  | Some (a, rest) => Some (f a, rest)
  | None => None
  end.

(** CreateDataProperty on an object under construction: a key already
    present keeps its place and takes the new value. *)
Fixpoint obj_set (k : string) (v : value) (fields : list (string * value))
  : list (string * value) :=
  match fields with
  | [] => [(k, v)]
  | (k', v') :: fields' =>
      if String.eqb k k' then (k, v) :: fields'
      else (k', v') :: obj_set k v fields'
  end.

Definition make_object (members : list (string * value)) : value :=
  VObj (fold_left (fun o kv => obj_set (fst kv) (snd kv) o) members []).

(** [closes c s]: what follows [c] when [s] starts with it. *)
Definition closes (c : ascii) (s : string) : option string :=
  match s with
  | String c' s' => if Ascii.eqb c' c then Some s' else None
  | EmptyString => None
  end.

(** The recursive-descent parser; [fuel] bounds the nesting of calls. *)
Fixpoint parse_value (fuel : nat) (s : string) {struct fuel}
  : option (value * string) :=
  match fuel with
  | O => None
  | S fuel' =>
      match skip_ws s with
      | EmptyString => None
      | String c r =>
          if Ascii.eqb c "n" then literal "ull" VNull r
          else if Ascii.eqb c "t" then literal "rue" (VBool true) r
          else if Ascii.eqb c "f" then literal "alse" (VBool false) r
          else if Ascii.eqb c DQ then with_rest VStr (parse_chars r)
          else if Ascii.eqb c "[" then
            match closes "]" (skip_ws r) with
            | Some r' => Some (VArr [], r')
            | None => with_rest VArr (parse_elements fuel' r)
            end
          else if Ascii.eqb c "{" then
            match closes "}" (skip_ws r) with
            | Some r' => Some (VObj [], r')
            | None => with_rest make_object (parse_members fuel' r)
            end
          else if Ascii.eqb c "-" || is_digit c then
            with_rest VNum (parse_number (String c r))
          else None
      end
  end
with parse_elements (fuel : nat) (s : string) {struct fuel}
  : option (list value * string) :=
  match fuel with
  | O => None
  | S fuel' =>
      match parse_value fuel' s with
      | Some (v, r) =>
          match skip_ws r with
          | String "," r' => with_rest (cons v) (parse_elements fuel' r')
          | String "]" r' => Some ([v], r')
          | _ => None
          end
      | None => None
      end
  end
with parse_members (fuel : nat) (s : string) {struct fuel}
  : option (list (string * value) * string) :=
  match fuel with
  | O => None
  | S fuel' =>
      match skip_ws s with
      | String "034" r =>
          match parse_chars r with
          | Some (k, r1) =>
              match skip_ws r1 with
              | String ":" r2 =>
                  match parse_value fuel' r2 with
                  | Some (v, r3) =>
                      match skip_ws r3 with
                      | String "," r4 =>
                          with_rest (cons (k, v)) (parse_members fuel' r4)
                      | String "}" r4 => Some ([(k, v)], r4)
                      | _ => None
                      end
                  | None => None
                  end
              | _ => None
              end
          | None => None
          end
      | _ => None
      end
  end.

(** [JSON.parse(text)]: one value, then nothing but white space. *)
Definition parse (text : string) : option value :=
  match parse_value (2 * String.length text + 2) text with
  | Some (v, rest) =>
      match skip_ws rest with
      | EmptyString => Some v
      | String _ _ => None
      end
  | None => None
  end.

(** *** Measures and well-formedness used in the proofs *)

(** A bound on the nesting of parser calls a value needs. *)
Fixpoint size (v : value) : nat :=
  match v with
  | VArr l => S (list_sum (map (fun x => S (size x)) l))
  | VObj fs => S (list_sum (map (fun kv => S (size (snd kv))) fs))
  | _ => 1
  end.

Fixpoint distinct (l : list string) : bool :=
  match l with
  | [] => true
  | k :: l' => negb (existsb (String.eqb k) l') && distinct l'
  end.

(** No object of the value has two fields of the same key: what holds of
    every JavaScript object. *)
Fixpoint unique_keys (v : value) : bool :=
  match v with
  | VArr l => forallb unique_keys l
  | VObj fs => distinct (map fst fs) && forallb (fun kv => unique_keys (snd kv)) fs
  | _ => true
  end.

(** [Number.isSafeInteger]: the integers a JavaScript number holds exactly
    and prints in plain decimal notation, for which [number_to_string] is
    the text JavaScript gives. *)
Definition safe_integer (n : Z) : bool :=
  (- (2 ^ 53 - 1) <=? n) && (n <=? 2 ^ 53 - 1).

(** Every number of the value is a safe integer. *)
Fixpoint safe_numbers (v : value) : bool :=
  match v with
  | VNum n => safe_integer n
  | VArr l => forallb safe_numbers l
  | VObj fs => forallb (fun kv => safe_numbers (snd kv)) fs
  | _ => true
  end.

(** The first character of a value's text. *)
Definition value_start (c : ascii) : bool :=
  is_digit c
  || existsb (Ascii.eqb c) ["n"; "t"; "f"; DQ; "["; "{"; "-"]%char.

(** A text after which a number literal ends. *)
Definition stops (s : string) : bool :=
  match s with
  | EmptyString => true
  | String c _ => negb (is_digit c || starts_fraction s)
  end.

(** What the round trip says of one value, at every indentation, with any
    text after it that ends a number literal. *)
Definition round_trips (gap : nat) (v : value) : Prop :=
  forall ind fuel rest,
    unique_keys v = true -> (size v <= fuel)%nat -> stops rest = true ->
    parse_value fuel (serialize gap ind v +:+ rest) = Some (v, rest).

End JSON.

(** ** Collaborators and requests of the examples *)

Fixpoint hex_number (s : string) (acc : N) : option N :=
  match s with
  | EmptyString => Some acc
  | String c s' =>
      match JSON.hex_value c with
      | Some d => hex_number s' (16 * acc + d)%N
      | None => None
      end
  end.

(** The ObjectId cast on 24-character hexadecimal strings.  (Older drivers
    also take any 12-byte string; the examples use neither.) *)
Definition ObjectId_of_string (id : string) : option N :=
  if Nat.eqb (String.length id) 24 then hex_number id 0 else None.

Definition stringify2 (v : value) : string := JSON.stringify v 2.

Definition json_text : string :=
  "{" +:+ JSON.quote "a" +:+ ":1}".

Definition ok_response : response :=
  {| rsp_status := 200; rsp_statusText := "OK";
     rsp_headers := {[ "content-type" := "application/json" ]};
     rsp_data := VObj [("id", VNum 7); ("tags", VArr [VStr "a"; VNull])] |}.

Definition axios_ok : config -> axios_result := fun _ => Resolved ok_response.

(** A response whose body is the number 5. *)
Definition five_response : response :=
  {| rsp_status := 200; rsp_statusText := "OK";
     rsp_headers := {[ "content-type" := "application/json" ]};
     rsp_data := VNum 5 |}.

Definition axios_five : config -> axios_result := fun _ => Resolved five_response.

Definition timeout_error : error := plain_error "timeout of 30000ms exceeded".

Definition axios_timeout : config -> axios_result :=
  fun _ => Rejected timeout_error.

(** A clock that reads 1000 at dispatch and 31005 from then on. *)
Definition clock_timeout (n : nat) : Z :=
  match n with
  | O => 1000
  | S _ => 31005
  end.

Definition clock_ms (n : nat) : Z := 1000 + 7 * Z.of_nat n.

Definition empty_world : world :=
  {| store := []; db_error := None; ticks := 0; next_id := 1; sent := [] |}.

Definition request (m : string) (h : option (gmap string string))
  (b : option string) (bt : option string) : description :=
  {| req_method := Some m; req_url := Some "http://example.test/items";
     req_headers := h; req_body := b; req_bodyType := bt |}.

Definition text_plain : gmap string string := {[ "Content-Type" := "text/plain" ]}.

Definition no_method : description :=
  {| req_method := None; req_url := Some "http://example.test/items";
     req_headers := None; req_body := None; req_bodyType := None |}.

(** A stored document created at time [t]. *)
Definition stored (id : N) (t : Z) : document :=
  historyRecord (fun _ => t) (request "GET" None None None)
    (prepare JSON.parse (request "GET" None None None) "get")
    (responseData stringify2 ok_response 12)
    {| store := []; db_error := None; ticks := 0; next_id := id; sent := [] |}.

(** Two documents created in the same millisecond. *)
Definition same_millisecond : world :=
  {| store := [stored 1 1000; stored 2 1000];
     db_error := None; ticks := 6; next_id := 3; sent := [] |}.

Definition three_records : world :=
  {| store := [stored 1 1000; stored 2 3000; stored 3 2000];
     db_error := None; ticks := 9; next_id := 4; sent := [] |}.

(** Sixty documents, created at 1, 2, ..., 60. *)
Definition sixty_records : world :=
  {| store := map (fun i => stored (N.of_nat i) (Z.of_nat i)) (seq 1 60);
     db_error := None; ticks := 180; next_id := 61; sent := [] |}.

(** [['post', 'put', 'patch'].includes(method.toLowerCase())] *)
Definition body_method (m : string) : bool :=
  includes ["post"; "put"; "patch"] (toLowerCase m).

(** ** Notions used in the further properties *)

(** The configuration of lines 56-62, before a body is added. *)
Definition base_config (d : description) (method_lc : string) : config :=
  {| cfg_method := method_lc; cfg_url := req_url d;
     cfg_headers := default ∅ (req_headers d);
     cfg_timeout := 30000; cfg_data := None |}.

(** What [historyRecord.save()] throws for the document of [d] in world
    [w]: a validation error for an empty or missing required path, else the
    store's error. *)
Definition save_error (d : description) (w : world) : option error :=
  match req_method d with
  | Some m =>
      if nonempty m then
        match req_url d with
        | Some u =>
            if nonempty u then option_map plain_error (db_error w)
            else Some (ValidationError "url")
        | None => Some (ValidationError "url")
        end
      else Some (ValidationError "method")
  | None => Some (ValidationError "method")
  end.

(** The outcome in the body of an answer of [POST /api/request]. *)
Definition reply_outcome (b : reply_body) : option outcome :=
  match b with
  | ExecOk o _ | ExecFail o _ => Some o
  | _ => None
  end.

(** A world whose store rejects every operation. *)
Definition store_down : world :=
  {| store := [stored 1 1000]; db_error := Some "buffering timed out after 10000ms";
     ticks := 3; next_id := 2; sent := [] |}.

Definition lowercase_type : gmap string string := {[ "content-type" := "text/plain" ]}.

(** A clock that reads later than every record of the examples. *)
Definition clock_late (n : nat) : Z := 5000 + Z.of_nat n.

(** * Properties *)

(** ** The JSON round trip *)

Module JSONFacts.
Import JSON.

Lemma append_cons c (a b : string) : String c a +:+ b = String c (a +:+ b).
Proof. reflexivity. Qed.

Lemma append_nil (b : string) : "" +:+ b = b.
Proof. reflexivity. Qed.

Lemma append_assoc (a b c : string) : (a +:+ b) +:+ c = a +:+ (b +:+ c).
Proof.
  induction a as [|x a IH]; [reflexivity|].
  rewrite !append_cons. f_equal. exact IH.
Qed.

Lemma length_append (a b : string) :
  String.length (a +:+ b) = (String.length a + String.length b)%nat.
Proof.
  induction a as [|x a IH]; [reflexivity|].
  rewrite append_cons. cbn. f_equal. exact IH.
Qed.

Ltac norm := repeat (rewrite append_assoc || rewrite append_cons || rewrite append_nil).

Lemma value_ind' (P : value -> Prop) :
  P VNull -> (forall b, P (VBool b)) -> (forall n, P (VNum n)) ->
  (forall s, P (VStr s)) ->
  (forall l, Forall P l -> P (VArr l)) ->
  (forall fs, Forall (fun kv => P (snd kv)) fs -> P (VObj fs)) ->
  forall v, P v.
Proof.
  intros Hnull Hbool Hnum Hstr Harr Hobj.
  fix IH 1. intros [ |b|n|s|l|fs].
  - exact Hnull.
  - apply Hbool.
  - apply Hnum.
  - apply Hstr.
  - apply Harr.
    revert l. fix IHl 1. intros [|x l]; constructor; [apply IH | apply IHl].
  - apply Hobj.
    revert fs. fix IHl 1. intros [|[k x] fs]; constructor; [apply IH | apply IHl].
Qed.

(** White space *)

Lemma skip_ws_spaces n s : skip_ws (spaces n +:+ s) = skip_ws s.
Proof. induction n as [|n IH]; [reflexivity|]. cbn [spaces]. norm. exact IH. Qed.

Lemma skip_ws_idem s : skip_ws (skip_ws s) = skip_ws s.
Proof.
  induction s as [|c s IH]; [reflexivity|].
  cbn. destruct (is_ws c) eqn:E; [exact IH|]. cbn. now rewrite E.
Qed.

Lemma parse_value_skip_ws fuel s : parse_value fuel (skip_ws s) = parse_value fuel s.
Proof. destruct fuel; [reflexivity|]. cbn. now rewrite skip_ws_idem. Qed.

Lemma value_start_facts c :
  value_start c = true ->
  is_ws c = false /\ Ascii.eqb c "]" = false /\ Ascii.eqb c "}" = false.
Proof.
  destruct c as [[] [] [] [] [] [] [] []]; cbn; intros H;
    try discriminate H; repeat split.
Qed.

Lemma skip_ws_start c s : value_start c = true -> skip_ws (String c s) = String c s.
Proof. intros H. cbn. now destruct (value_start_facts c H) as [-> _]. Qed.


Lemma skip_ws_indent n s : skip_ws (String LF (spaces n +:+ s)) = skip_ws s.
Proof. change (skip_ws (String LF (spaces n +:+ s))) with (skip_ws (spaces n +:+ s)).
  apply skip_ws_spaces. Qed.

Lemma parse_value_indent fuel n s :
  parse_value fuel (String LF (spaces n +:+ s)) = parse_value fuel s.
Proof.
  rewrite <- parse_value_skip_ws, skip_ws_indent. apply parse_value_skip_ws.
Qed.

(** Strings *)

Lemma parse_chars_escape_char c t :
  parse_chars (escape_char c +:+ t) = cons_char c (parse_chars t).
Proof. destruct c as [[] [] [] [] [] [] [] []]; reflexivity. Qed.

Lemma parse_chars_escape s rest :
  parse_chars (escape s +:+ String DQ rest) = Some (s, rest).
Proof.
  induction s as [|c s IH]; [reflexivity|].
  cbn [escape]. rewrite append_assoc, parse_chars_escape_char, IH. reflexivity.
Qed.

(** Numbers *)

Lemma stops_facts rest :
  stops rest = true ->
  read_digits rest = (Decimal.Nil, rest) /\ starts_fraction rest = false.
Proof.
  destruct rest as [|c r]; [split; reflexivity|].
  unfold stops. rewrite negb_true_iff, orb_false_iff. intros [Hd Hf].
  split; [|exact Hf]. cbn. now rewrite Hd.
Qed.

Lemma read_digits_digits d rest :
  stops rest = true -> read_digits (digits d +:+ rest) = (d, rest).
Proof.
  intros Hs. induction d; cbn [digits]; rewrite ?append_cons, ?append_nil;
    [apply stops_facts, Hs | cbn; rewrite IHd; reflexivity ..].
Qed.

Lemma to_uint_head p :
  match Pos.to_uint p with
  | Decimal.Nil | Decimal.D0 _ => False
  | _ => True
  end.
Proof.
  pose proof (DecimalPos.Unsigned.to_uint_nonnil p) as Hnil.
  pose proof (DecimalPos.Unsigned.to_uint_nonzero p) as Hz.
  pose proof (DecimalPos.Unsigned.to_of (Pos.to_uint p)) as Hn.
  rewrite DecimalPos.Unsigned.of_to in Hn. cbn [N.to_uint] in Hn.
  destruct (Pos.to_uint p) eqn:E; try exact I; try congruence.
  destruct (Decimal.uint_eq_dec (Decimal.nzhead (Decimal.D0 u)) Decimal.Nil) as [Hh|Hh].
  - apply DecimalFacts.unorm_0 in Hh. congruence.
  - apply DecimalFacts.unorm_nzhead in Hh. rewrite Hh in Hn.
    symmetry in Hn. now apply DecimalFacts.nzhead_nonzero in Hn.
Qed.

Lemma parse_unsigned_pos p rest :
  stops rest = true ->
  parse_unsigned (digits (Pos.to_uint p) +:+ rest) = Some (Zpos p, rest).
Proof.
  intros Hs. unfold parse_unsigned. rewrite (read_digits_digits _ _ Hs).
  destruct (stops_facts rest Hs) as [_ ->].
  pose proof (to_uint_head p) as Hh. pose proof (DecimalPos.Unsigned.of_to p) as Ho.
  destruct (Pos.to_uint p); try contradiction;
    (unfold N.of_uint; rewrite Ho; reflexivity).
Qed.

Lemma parse_number_ok n rest :
  stops rest = true -> parse_number (number_to_string n +:+ rest) = Some (n, rest).
Proof.
  intros Hs. destruct n as [|p|p]; cbn [number_to_string].
  - change (parse_number ("0" +:+ rest))
      with (parse_unsigned (digits (Decimal.D0 Decimal.Nil) +:+ rest)).
    unfold parse_unsigned. rewrite (read_digits_digits _ _ Hs).
    destruct (stops_facts rest Hs) as [_ ->]. reflexivity.
  - pose proof (parse_unsigned_pos p rest Hs) as Hp.
    pose proof (to_uint_head p) as Hh.
    destruct (Pos.to_uint p); try contradiction; exact Hp.
  - rewrite append_cons. unfold parse_number.
    rewrite (parse_unsigned_pos p rest Hs). reflexivity.
Qed.

Lemma number_head n :
  exists c s, number_to_string n = String c s
              /\ (is_digit c || Ascii.eqb c "-") = true.
Proof.
  destruct n as [|p|p]; cbn [number_to_string].
  - do 2 eexists. split; reflexivity.
  - pose proof (to_uint_head p).
    destruct (Pos.to_uint p); try contradiction; do 2 eexists; split; reflexivity.
  - do 2 eexists. split; reflexivity.
Qed.

Lemma parse_value_number f c s :
  (is_digit c || Ascii.eqb c "-") = true ->
  parse_value (S f) (String c s) = with_rest VNum (parse_number (String c s)).
Proof.
  destruct c as [[] [] [] [] [] [] [] []]; cbn; intros H;
    try discriminate H; reflexivity.
Qed.


Lemma value_start_number c :
  (is_digit c || Ascii.eqb c "-") = true -> value_start c = true.
Proof.
  destruct c as [[] [] [] [] [] [] [] []]; cbn; intros H;
    try discriminate H; reflexivity.
Qed.

Lemma serialize_head gap ind v :
  exists c s, serialize gap ind v = String c s /\ value_start c = true.
Proof.
  destruct v as [ |[]|n|s|[|x l]|[|kv l]]; cbn [serialize];
    try (do 2 eexists; split; reflexivity).
  destruct (number_head n) as (c & s & -> & H).
  exists c, s. split; [reflexivity|]. now apply value_start_number.
Qed.

(** The equations of the parser *)

Lemma parse_value_string f t :
  parse_value (S f) (String DQ t) = with_rest VStr (parse_chars t).
Proof. reflexivity. Qed.

Lemma parse_value_array f r :
  parse_value (S f) (String "[" r) =
  match closes "]" (skip_ws r) with
  | Some r' => Some (VArr [], r')
  | None => with_rest VArr (parse_elements f r)
  end.
Proof. reflexivity. Qed.

Lemma parse_value_object f r :
  parse_value (S f) (String "{" r) =
  match closes "}" (skip_ws r) with
  | Some r' => Some (VObj [], r')
  | None => with_rest make_object (parse_members f r)
  end.
Proof. reflexivity. Qed.

Lemma parse_elements_eq f s :
  parse_elements (S f) s =
  match parse_value f s with
  | Some (v, r) =>
      match skip_ws r with
      | String "," r' => with_rest (cons v) (parse_elements f r')
      | String "]" r' => Some ([v], r')
      | _ => None
      end
  | None => None
  end.
Proof. reflexivity. Qed.

Lemma parse_members_eq f n k t :
  parse_members (S f) (String LF (spaces n +:+ quote k +:+ ": " +:+ t)) =
  match parse_value f t with
  | Some (v, r3) =>
      match skip_ws r3 with
      | String "," r4 => with_rest (cons (k, v)) (parse_members f r4)
      | String "}" r4 => Some ([(k, v)], r4)
      | _ => None
      end
  | None => None
  end.
Proof.
  cbn [parse_members]. rewrite skip_ws_indent. unfold quote. norm.
  change (skip_ws (String DQ ?x)) with (String DQ x).
  cbv beta iota. rewrite parse_chars_escape.
  change (skip_ws (String ":" ?x)) with (String ":" x). cbv beta iota.
  rewrite <- (parse_value_skip_ws f (String " " t)).
  change (skip_ws (String " " t)) with (skip_ws t).
  rewrite parse_value_skip_ws. reflexivity.
Qed.

Lemma closes_start c c' s :
  value_start c = true -> (c' = "]" \/ c' = "}")%char -> closes c' (String c s) = None.
Proof.
  intros H Hc. destruct (value_start_facts c H) as (_ & H1 & H2).
  unfold closes. destruct Hc as [-> | ->]; [now rewrite H1 | now rewrite H2].
Qed.

(** Arrays *)

Lemma stops_more_elements gap ind pr l rest :
  stops (more_elements gap ind pr l +:+ rest) = true.
Proof. destruct l; reflexivity. Qed.

Lemma stops_more_members gap ind pr l rest :
  stops (more_members gap ind pr l +:+ rest) = true.
Proof. destruct l; reflexivity. Qed.

Lemma parse_elements_ok gap ind l :
  forall x f rest,
    Forall (round_trips gap) (x :: l) ->
    forallb unique_keys (x :: l) = true ->
    (list_sum (map (fun y => S (size y)) (x :: l)) <= f)%nat ->
    parse_elements f
      (String LF (spaces (gap + ind) +:+ serialize gap (gap + ind) x
                  +:+ more_elements gap ind (serialize gap (gap + ind)) l +:+ rest))
    = Some (x :: l, rest).
Proof.
  induction l as [|y l IH]; intros x f rest Hrt Hu Hf;
    (destruct f as [|f]; [cbn in Hf; lia|]);
    rewrite parse_elements_eq, parse_value_indent;
    apply Forall_cons in Hrt as [Hx Hrt];
    cbn [forallb] in Hu; apply andb_true_iff in Hu as [Hux Hu];
    simpl in Hf.
  - rewrite Hx; [|exact Hux|lia|apply stops_more_elements].
    cbn [more_elements]. norm. rewrite skip_ws_indent. reflexivity.
  - rewrite Hx; [|exact Hux|lia|apply stops_more_elements].
    cbn [more_elements]. norm.
    change (skip_ws (String "," ?t)) with (String "," t). cbv beta iota.
    rewrite (IH y f rest Hrt Hu); [reflexivity|]. simpl. lia.
Qed.


(** Objects *)

Lemma parse_members_ok gap ind l :
  forall kv f rest,
    Forall (fun kv => round_trips gap (snd kv)) (kv :: l) ->
    forallb (fun kv => unique_keys (snd kv)) (kv :: l) = true ->
    (list_sum (map (fun kv => S (size (snd kv))) (kv :: l)) <= f)%nat ->
    parse_members f
      (String LF (member gap ind (serialize gap (gap + ind)) kv
                  +:+ more_members gap ind (serialize gap (gap + ind)) l +:+ rest))
    = Some (kv :: l, rest).
Proof.
  induction l as [|kv' l IH]; intros [k v] f rest Hrt Hu Hf;
    (destruct f as [|f]; [cbn in Hf; lia|]);
    unfold member at 1; cbn [fst snd];
    rewrite !append_assoc, parse_members_eq;
    apply Forall_cons in Hrt as [Hx Hrt]; cbn [snd] in Hx;
    cbn [forallb snd] in Hu; apply andb_true_iff in Hu as [Hux Hu];
    simpl in Hf.
  - rewrite Hx; [|exact Hux|lia|apply stops_more_members].
    cbn [more_members]. norm. rewrite skip_ws_indent. reflexivity.
  - rewrite Hx; [|exact Hux|lia|apply stops_more_members].
    cbn [more_members]. rewrite !append_cons, (append_assoc (member _ _ _ _)).
    change (skip_ws (String "," ?t)) with (String "," t). cbv beta iota.
    rewrite (IH kv' f rest Hrt Hu); [reflexivity|]. simpl. lia.
Qed.

Lemma existsb_eqb_false k (l : list string) :
  existsb (String.eqb k) l = false <-> k ∉ l.
Proof.
  induction l as [|x l IH]; cbn.
  - split; [intros _; apply not_elem_of_nil | reflexivity].
  - rewrite orb_false_iff, IH, not_elem_of_cons, String.eqb_neq. tauto.
Qed.

Lemma distinct_NoDup l : distinct l = true <-> NoDup l.
Proof.
  induction l as [|x l IH]; cbn.
  - split; [constructor | reflexivity].
  - rewrite andb_true_iff, negb_true_iff, existsb_eqb_false, IH, NoDup_cons. tauto.
Qed.

Lemma obj_set_fresh k v acc :
  k ∉ map fst acc -> obj_set k v acc = acc ++ [(k, v)].
Proof.
  induction acc as [|[k' v'] acc IH]; cbn; [reflexivity|].
  rewrite not_elem_of_cons. intros [Hne Hnin].
  apply String.eqb_neq in Hne. rewrite Hne, IH by exact Hnin. reflexivity.
Qed.

Lemma fold_obj_set fs :
  forall acc,
    NoDup (map fst (acc ++ fs)) ->
    fold_left (fun o kv => obj_set (fst kv) (snd kv) o) fs acc = acc ++ fs.
Proof.
  induction fs as [|[k v] fs IH]; intros acc Hnd; cbn [fold_left fst snd].
  - now rewrite app_nil_r.
  - rewrite obj_set_fresh.
    + rewrite IH; rewrite <- app_assoc; [reflexivity | exact Hnd].
    + rewrite map_app in Hnd. apply NoDup_app in Hnd as (_ & Hd & _).
      intros Hin. apply (Hd k Hin). cbn. apply list_elem_of_here.
Qed.

Lemma make_object_distinct fs :
  distinct (map fst fs) = true -> make_object fs = VObj fs.
Proof.
  intros H. unfold make_object. rewrite (fold_obj_set fs []); [reflexivity|].
  now apply distinct_NoDup.
Qed.

(** The round trip *)

Lemma parse_serialize gap v : round_trips gap v.
Proof.
  induction v as [ |b|n|s|l IH|fs IH] using value_ind';
    intros ind fuel rest Hu Hf Hs;
    (destruct fuel as [|f]; [cbn in Hf; lia|]).
  - reflexivity.
  - destruct b; reflexivity.
  - cbn [serialize]. destruct (number_head n) as (c & t & E & Hc).
    rewrite E, append_cons, parse_value_number by exact Hc.
    rewrite <- append_cons, <- E, parse_number_ok by exact Hs. reflexivity.
  - cbn [serialize]. unfold quote. rewrite append_cons, append_assoc, append_cons.
    rewrite parse_value_string, append_nil, parse_chars_escape. reflexivity.
  - destruct l as [|x l]; [reflexivity|].
    cbn [serialize]. rewrite !append_cons, !append_assoc, parse_value_array.
    rewrite skip_ws_indent.
    destruct (serialize_head gap (gap + ind) x) as (c & t & E & Hc).
    rewrite E at 1. rewrite append_cons, (skip_ws_start c _ Hc).
    rewrite closes_start by (assumption || auto).
    cbn [unique_keys] in Hu. simpl in Hf.
    rewrite (parse_elements_ok gap ind l x f rest IH Hu); [reflexivity|].
    simpl. lia.
  - destruct fs as [|kv fs]; [reflexivity|].
    cbn [serialize]. rewrite !append_cons, parse_value_object.
    cbn [unique_keys] in Hu. apply andb_true_iff in Hu as [Hd Hu]. simpl in Hf.
    assert (Hc : closes "}" (skip_ws (String LF
              ((member gap ind (serialize gap (gap + ind)) kv
                +:+ more_members gap ind (serialize gap (gap + ind)) fs) +:+ rest)))
            = None).
    { unfold member at 1. rewrite !append_assoc, skip_ws_indent. reflexivity. }
    rewrite Hc, append_assoc.
    rewrite (parse_members_ok gap ind fs kv f rest IH Hu); [|simpl; lia].
    cbn [with_rest]. now rewrite make_object_distinct.
Qed.


(** The fuel [parse] gives the parser is enough for a serialized value *)

Lemma length_more_elements gap ind pr l :
  Forall (fun y => size y <= String.length (pr y))%nat l ->
  (list_sum (map (fun y => S (size y)) l)
   <= String.length (more_elements gap ind pr l))%nat.
Proof.
  induction 1 as [|y l Hy _ IH]; simpl.
  - lia.
  - rewrite !length_append. lia.
Qed.

Lemma length_more_members gap ind pr l :
  Forall (fun kv => size (snd kv) <= String.length (pr (snd kv)))%nat l ->
  (list_sum (map (fun kv => S (size (snd kv))) l)
   <= String.length (more_members gap ind pr l))%nat.
Proof.
  induction 1 as [|y l Hy _ IH]; simpl.
  - lia.
  - unfold member. rewrite !length_append. lia.
Qed.

Lemma size_le_length gap v :
  forall ind, (size v <= String.length (serialize gap ind v))%nat.
Proof.
  induction v as [ |b|n|s|l IH|fs IH] using value_ind'; intros ind.
  - cbn. lia.
  - destruct b; cbn; lia.
  - cbn [serialize size]. destruct (number_head n) as (c & t & -> & _). cbn. lia.
  - cbn. lia.
  - destruct l as [|x l]; [cbn; lia|].
    apply Forall_cons in IH as [Hx IH].
    simpl. rewrite !length_append.
    pose proof (Hx (gap + ind)%nat).
    pose proof (length_more_elements gap ind (serialize gap (gap + ind)) l) as Hl.
    assert (list_sum (map (fun y => S (size y)) l)
            <= String.length (more_elements gap ind (serialize gap (gap + ind)) l))%nat.
    { apply Hl. eapply Forall_impl; [exact IH|]. intros y Hy. apply Hy. }
    lia.
  - destruct fs as [|kv fs]; [cbn; lia|].
    apply Forall_cons in IH as [Hx IH].
    simpl. unfold member at 1. rewrite !length_append.
    pose proof (Hx (gap + ind)%nat).
    pose proof (length_more_members gap ind (serialize gap (gap + ind)) fs) as Hl.
    assert (list_sum (map (fun kv => S (size (snd kv))) fs)
            <= String.length (more_members gap ind (serialize gap (gap + ind)) fs))%nat.
    { apply Hl. eapply Forall_impl; [exact IH|]. intros y Hy. apply Hy. }
    lia.
Qed.

Lemma append_empty_r (s : string) : s +:+ "" = s.
Proof.
  induction s as [|c s IH]; [reflexivity|]. rewrite append_cons. now f_equal.
Qed.

Example stringify_indented :
  stringify (VArr [VNum 1; VArr [VNum (-20)]; VObj []; VNull]) 2 =
"[
  1,
  [
    -20
  ],
  {},
  null
]".
Proof. reflexivity. Qed.

(** [JSON.parse(JSON.stringify(v, null, space))] is [v]. *)
Theorem parse_stringify v space :
  unique_keys v = true -> parse (stringify v space) = Some v.
Proof.
  intros Hu. unfold parse, stringify.
  pose proof (size_le_length space v 0) as Hsz.
  pose proof (parse_serialize space v 0%nat
                (2 * String.length (serialize space 0 v) + 2)%nat "" Hu) as Hp.
  rewrite append_empty_r in Hp. rewrite Hp; [reflexivity | lia | reflexivity].
Qed.

End JSONFacts.

(** ** The body-encoding dispatch *)

Section Dispatch.

Variable JSON_parse : string -> option value.
Variables (d : description) (m b : string).
Hypothesis Hmethod : body_method m = true.
Hypothesis Hbody : req_body d = Some b.
Hypothesis Hnonempty : nonempty b = true.

#[local] Abbreviation supplied := (default ∅ (req_headers d)).
#[local] Abbreviation outbound := (prepare JSON_parse d (toLowerCase m)).

Ltac dispatch Ht :=
  unfold prepare, add_body, bodyType_is; unfold body_method in Hmethod;
  cbn [cfg_method]; rewrite Hbody, Hmethod, Hnonempty, Ht; cbn.

Lemma prepare_raw :
  req_bodyType d = Some "raw" ->
  cfg_data outbound = Some (match JSON_parse b with
                            | Some parsed => parsed
                            | None => VStr b
                            end)
  /\ cfg_headers outbound =
     match JSON_parse b with
     | Some _ =>
         <["Content-Type" :=
             str_or (default "" (supplied !! "Content-Type")) "application/json"]>
           supplied
     | None => supplied
     end.
Proof. intros Ht. dispatch Ht. destruct (JSON_parse b); split; reflexivity. Qed.

Lemma prepare_form_data :
  req_bodyType d = Some "form-data" ->
  cfg_data outbound = Some (VStr b)
  /\ cfg_headers outbound = <["Content-Type" := "multipart/form-data"]> supplied.
Proof. intros Ht. dispatch Ht. split; reflexivity. Qed.

Lemma prepare_urlencoded :
  req_bodyType d = Some "urlencoded" ->
  cfg_data outbound = Some (VStr b)
  /\ cfg_headers outbound
     = <["Content-Type" := "application/x-www-form-urlencoded"]> supplied.
Proof. intros Ht. dispatch Ht. split; reflexivity. Qed.

End Dispatch.

(** C4: with a body-bearing method, a non-empty body and [bodyType] raw,
    the outbound payload is the parsed value when the body parses as JSON,
    and the body string itself when it does not. *)
Theorem raw_payload JSON_parse d m b :
  req_method d = Some m -> body_method m = true ->
  req_body d = Some b -> nonempty b = true ->
  req_bodyType d = Some "raw" ->
  cfg_data (prepare JSON_parse d (toLowerCase m)) =
  Some (match JSON_parse b with
        | Some parsed => parsed
        | None => VStr b
        end).
Proof.
  intros _ Hm Hb Hne Ht. apply (prepare_raw JSON_parse d m b Hm Hb Hne Ht).
Qed.

Lemma raw_payload_witness :
  cfg_data (prepare JSON.parse (request "POST" None (Some json_text) (Some "raw")) "post")
  = Some (VObj [("a", VNum 1)])
  /\ cfg_data (prepare JSON.parse (request "PUT" None (Some "{not json") (Some "raw")) "put")
     = Some (VStr "{not json").
Proof.
  split.
  - exact (raw_payload JSON.parse (request "POST" None (Some json_text) (Some "raw"))
             "POST" json_text eq_refl eq_refl eq_refl eq_refl eq_refl).
  - exact (raw_payload JSON.parse (request "PUT" None (Some "{not json") (Some "raw"))
             "PUT" "{not json" eq_refl eq_refl eq_refl eq_refl eq_refl).
Defined.

(** C2, as the code has it: with a body-bearing method and a non-empty
    body, raw places [application/json] only when the body parses and the
    caller gave no (non-empty) Content-Type, and leaves the headers as
    supplied when the body does not parse; form-data and urlencoded set
    their own Content-Type whatever the caller supplied. *)
Theorem content_type_dispatch JSON_parse d m b :
  req_method d = Some m -> body_method m = true ->
  req_body d = Some b -> nonempty b = true ->
  let supplied := default ∅ (req_headers d) in
  let outbound := cfg_headers (prepare JSON_parse d (toLowerCase m)) in
  (req_bodyType d = Some "raw" ->
   match JSON_parse b with
   | Some _ =>
       outbound !! "Content-Type" =
       Some (str_or (default "" (supplied !! "Content-Type")) "application/json")
   | None => outbound = supplied
   end)
  /\ (req_bodyType d = Some "form-data" ->
      outbound !! "Content-Type" = Some "multipart/form-data")
  /\ (req_bodyType d = Some "urlencoded" ->
      outbound !! "Content-Type" = Some "application/x-www-form-urlencoded").
Proof.
  intros _ Hm Hb Hne supplied outbound. subst supplied outbound.
  repeat split; intros Ht.
  - destruct (prepare_raw JSON_parse d m b Hm Hb Hne Ht) as [_ ->].
    destruct (JSON_parse b); [apply lookup_insert_eq | reflexivity].
  - destruct (prepare_form_data JSON_parse d m b Hm Hb Hne Ht) as [_ ->].
    apply lookup_insert_eq.
  - destruct (prepare_urlencoded JSON_parse d m b Hm Hb Hne Ht) as [_ ->].
    apply lookup_insert_eq.
Qed.

Lemma content_type_dispatch_witness :
  cfg_headers (prepare JSON.parse
                 (request "POST" (Some text_plain) (Some json_text) (Some "raw")) "post")
    !! "Content-Type" = Some "text/plain".
Proof.
  exact (proj1 (content_type_dispatch JSON.parse
                  (request "POST" (Some text_plain) (Some json_text) (Some "raw"))
                  "POST" json_text eq_refl eq_refl eq_refl eq_refl) eq_refl).
Defined.

(** C2 as stated fails: with form-data the caller's Content-Type is
    overwritten; and with raw and a body that is not JSON no Content-Type
    is placed although the caller supplied none. *)
Lemma content_type_overwritten :
  let d := request "POST" (Some text_plain) (Some "a=1") (Some "form-data") in
  let d' := request "POST" None (Some "plain text") (Some "raw") in
  default ∅ (req_headers d) !! "Content-Type" = Some "text/plain"
  /\ cfg_headers (prepare JSON.parse d "post") !! "Content-Type"
     = Some "multipart/form-data"
  /\ cfg_headers (prepare JSON.parse d' "post") !! "Content-Type" = None.
Proof. repeat split. Qed.

(** ** Running [POST /api/request] *)

(** What line 92 makes of a response body is a string, a number or a
    boolean, which the schema can cast. *)
Lemma cast_of_normalized JSON_stringify v :
  cast_failed (schema_String JSON_stringify (normalize JSON_stringify v)) = false.
Proof.
  unfold normalize. destruct v as [ |[]|n|s|l|fs]; reflexivity.
Qed.

Section Execution.

Variable JSON_parse : string -> option value.
Variable JSON_stringify : value -> string.
Variable axios : config -> axios_result.
Variable clock : nat -> Z.

#[local] Abbreviation post := (post_request JSON_parse JSON_stringify axios clock).
#[local] Abbreviation caught' := (caught JSON_stringify clock).

Lemma post_no_method d w :
  req_method d = None -> post d w = caught' TypeError_toLowerCase w (sent w).
Proof.
  intros H. unfold post_request, try_catch, bind, Date_now, method_toLowerCase, caught.
  rewrite H. reflexivity.
Qed.

Lemma post_rejected d w m e :
  req_method d = Some m ->
  axios (prepare JSON_parse d (toLowerCase m)) = Rejected e ->
  post d w = caught' e w (sent w ++ [prepare JSON_parse d (toLowerCase m)]).
Proof.
  intros H Ha.
  unfold post_request, try_catch, bind, Date_now, method_toLowerCase, await_axios, caught.
  rewrite H. cbn. rewrite Ha. reflexivity.
Qed.

Lemma post_resolved_saved d w m u r :
  req_method d = Some m -> nonempty m = true ->
  req_url d = Some u -> nonempty u = true ->
  db_error w = None ->
  axios (prepare JSON_parse d (toLowerCase m)) = Resolved r ->
  let c := prepare JSON_parse d (toLowerCase m) in
  let out := responseData JSON_stringify r (clock (1 + ticks w) - clock (ticks w)) in
  post d w =
  (inr {| code := 200; payload := ExecOk out (next_id w) |},
   {| store := store w ++ [historyRecord clock d c (stored_outcome JSON_stringify out) w];
      db_error := None;
      ticks := 3 + ticks w; next_id := N.succ (next_id w);
      sent := sent w ++ [c] |}).
Proof.
  intros H Hm Hu Hun Hdb Ha c out. subst c out.
  unfold post_request, try_catch, bind, Date_now, method_toLowerCase, await_axios,
    new_RequestHistory, save, required, cast_checked, store_ready, historyRecord,
    bind, ret.
  rewrite H. cbn. rewrite Ha. cbn. rewrite ?H, ?Hm, ?Hu. cbn.
  rewrite ?Hun, cast_of_normalized, ?Hdb. cbn. rewrite ?Hdb. reflexivity.
Qed.

(** Every path of the handler ends in [res.json], with status 200. *)
Lemma post_answers d w :
  exists out w',
    (exists id, post d w = (inr {| code := 200; payload := ExecOk out id |}, w'))
    \/ (exists msg, post d w = (inr {| code := 200; payload := ExecFail out msg |}, w')).
Proof.
  unfold post_request, try_catch, bind, Date_now, method_toLowerCase, await_axios,
    new_RequestHistory, save, required, cast_checked, store_ready, bind, ret, throw.
  destruct (req_method d) as [m|] eqn:H; cbn.
  2: { do 2 eexists. right. eexists. reflexivity. }
  destruct (axios _) as [r|e]; cbn.
  2: { do 2 eexists. right. eexists. reflexivity. }
  rewrite ?H.
  destruct (nonempty m); cbn.
  2: { do 2 eexists. right. eexists. reflexivity. }
  destruct (req_url d) as [u|]; cbn.
  2: { do 2 eexists. right. eexists. reflexivity. }
  destruct (nonempty u); cbn.
  2: { do 2 eexists. right. eexists. reflexivity. }
  rewrite cast_of_normalized.
  destruct (db_error w); cbn.
  - do 2 eexists. right. eexists. reflexivity.
  - do 2 eexists. left. eexists. reflexivity.
Qed.

(** The handler when axios resolves: the record is saved, or [save] throws
    and the catch block answers, five clock readings after the start. *)
Lemma post_resolved d w m r :
  req_method d = Some m ->
  axios (prepare JSON_parse d (toLowerCase m)) = Resolved r ->
  let c := prepare JSON_parse d (toLowerCase m) in
  let out := responseData JSON_stringify r (clock (1 + ticks w) - clock (ticks w)) in
  post d w =
  match save_error d w with
  | None =>
      (inr {| code := 200; payload := ExecOk out (next_id w) |},
       {| store := store w
                   ++ [historyRecord clock d c (stored_outcome JSON_stringify out) w];
          db_error := db_error w; ticks := 3 + ticks w;
          next_id := N.succ (next_id w); sent := sent w ++ [c] |})
  | Some e =>
      (inr {| code := 200;
              payload := ExecFail (errorResponse JSON_stringify e
                                     (clock (3 + ticks w) - clock (4 + ticks w)))
                                  (message e) |},
       {| store := store w; db_error := db_error w; ticks := 5 + ticks w;
          next_id := N.succ (next_id w); sent := sent w ++ [c] |})
  end.
Proof.
  intros H Ha c out. subst c out.
  cbv [post_request try_catch bind Date_now method_toLowerCase await_axios
         new_RequestHistory save required cast_checked store_ready historyRecord
         ret throw save_error].
  rewrite H. cbv beta iota. rewrite Ha.
  cbn [ticks store db_error next_id sent method url doc_response].
  rewrite ?H.
  destruct (nonempty m); [|reflexivity].
  destruct (req_url d) as [u|]; [|reflexivity].
  destruct (nonempty u); [|reflexivity].
  cbn [stored_outcome responseData data]. rewrite cast_of_normalized.
  destruct (db_error w); reflexivity.
Qed.

(** A description without a non-empty [method] and [url] does not pass the
    validation. *)
Lemma save_error_invalid d w :
  req_method d = None \/ req_method d = Some ""
  \/ req_url d = None \/ req_url d = Some "" ->
  exists e, save_error d w = Some e.
Proof.
  unfold save_error. intros [H | [H | [H | H]]]; rewrite H; cbn; eauto.
  - destruct (req_method d) as [m|]; [destruct (nonempty m)|]; eauto.
  - destruct (req_method d) as [m|]; [destruct (nonempty m)|]; eauto.
Qed.

(** C1, as the code has it: an execution whose outbound call fails at the
    transport level persists no record; an execution whose outbound call
    resolves persists exactly one, provided [method] and [url] are non-empty
    and the store accepts the write. *)
Theorem persisted_records d w m :
  req_method d = Some m ->
  let res := post d w in
  match axios (prepare JSON_parse d (toLowerCase m)) with
  | Rejected _ => store (snd res) = store w
  | Resolved _ =>
      nonempty m = true ->
      (exists u, req_url d = Some u /\ nonempty u = true) ->
      db_error w = None ->
      exists doc out,
        store (snd res) = store w ++ [doc]
        /\ fst res = inr {| code := 200; payload := ExecOk out (_id doc) |}
        /\ doc_response doc = stored_outcome JSON_stringify out
  end.
Proof.
  intros H res. subst res.
  destruct (axios _) as [r|e] eqn:Ha.
  - intros Hm (u & Hu & Hun) Hdb.
    rewrite (post_resolved_saved d w m u r H Hm Hu Hun Hdb Ha). cbn.
    do 2 eexists. repeat split.
  - rewrite (post_rejected d w m e H Ha). reflexivity.
Qed.

(** C3, as the code has it: every description that reaches the handler is
    answered with HTTP 200 and a body carrying the [success] flag; when
    [method] is missing the flag is false, axios is not called and nothing
    is persisted; when [method] is empty or [url] is missing or empty the
    flag is false and nothing is persisted. *)
Theorem post_always_200 d w :
  let res := post d w in
  exists rep,
    fst res = inr rep /\ code rep = 200
    /\ (exists out, (exists id, payload rep = ExecOk out id)
                    \/ (exists msg, payload rep = ExecFail out msg))
    /\ (req_method d = None ->
        success (payload rep) = false
        /\ sent (snd res) = sent w /\ store (snd res) = store w)
    /\ (req_method d = Some "" \/ req_url d = None \/ req_url d = Some "" ->
        success (payload rep) = false /\ store (snd res) = store w).
Proof.
  intros res. subst res.
  destruct (req_method d) as [m|] eqn:H.
  - destruct (axios (prepare JSON_parse d (toLowerCase m))) as [r|e] eqn:Ha.
    + rewrite (post_resolved d w m r H Ha). cbv zeta.
      destruct (save_error d w) as [e|] eqn:He.
      * eexists. split; [reflexivity|]. split; [reflexivity|].
        split; [eexists; right; eexists; reflexivity|].
        split; [discriminate | intros _; split; reflexivity].
      * eexists. split; [reflexivity|]. split; [reflexivity|].
        split; [eexists; left; eexists; reflexivity|].
        split; [discriminate|]. intros Hbad.
        destruct (save_error_invalid d w) as [e He'].
        { rewrite H.
          destruct Hbad as [Hb | Hb]; [right; left; exact Hb | right; right; exact Hb]. }
        congruence.
    + rewrite (post_rejected d w m e H Ha). eexists.
      split; [reflexivity|]. split; [reflexivity|].
      split; [eexists; right; eexists; reflexivity|].
      split; [discriminate | intros _; split; reflexivity].
  - rewrite (post_no_method d w H). eexists. split; [reflexivity|].
    split; [reflexivity|].
    split; [eexists; right; eexists; reflexivity|].
    split; intros _; repeat split.
Qed.

(** X18: when the outbound call fails the handler answers with HTTP 200
    and [success: false]; the outcome has status 0, the failure message as
    statusText and data and no headers when the failure carries no response,
    and when it carries one, that response's status and headers, its status
    text unless empty, and its body under the text-normalisation rule unless
    falsy. *)
Theorem failure_outcome d w m e :
  req_method d = Some m ->
  axios (prepare JSON_parse d (toLowerCase m)) = Rejected e ->
  exists out w',
    post d w = (inr {| code := 200; payload := ExecFail out (message e) |}, w')
    /\ match err_response e with
       | None =>
           status out = 0 /\ statusText out = message e
           /\ headers out = ∅ /\ data out = VStr (message e)
       | Some r =>
           status out = rsp_status r
           /\ statusText out = (if nonempty (rsp_statusText r)
                                then rsp_statusText r else message e)
           /\ headers out = rsp_headers r
           /\ data out = (if truthy (rsp_data r)
                          then if typeof_object (rsp_data r)
                               then VStr (JSON_stringify (rsp_data r))
                               else rsp_data r
                          else VStr (message e))
       end.
Proof.
  intros H Ha. rewrite (post_rejected d w m e H Ha). unfold caught.
  do 2 eexists. split; [reflexivity|].
  unfold errorResponse. destruct (err_response e); cbn; repeat split.
Qed.

(** The time the catch block reports is the difference of two readings it
    takes itself, the later one subtracted from the earlier: it is never
    positive on a clock that does not run backwards. *)
Lemma failure_time_not_elapsed d w m e :
  (forall i j, (i <= j)%nat -> clock i <= clock j) ->
  req_method d = Some m ->
  axios (prepare JSON_parse d (toLowerCase m)) = Rejected e ->
  exists out w',
    post d w = (inr {| code := 200; payload := ExecFail out (message e) |}, w')
    /\ time out <= 0.
Proof.
  intros Hmono H Ha. rewrite (post_rejected d w m e H Ha). unfold caught.
  do 2 eexists. split; [reflexivity|].
  unfold errorResponse. pose proof (Hmono (1 + ticks w) (2 + ticks w))%nat.
  destruct (err_response e); cbn [time]; lia.
Qed.

End Execution.

Lemma persisted_records_witness :
  store (snd (post_request JSON.parse stringify2 axios_timeout clock_timeout
                (request "GET" None None None) empty_world)) = []
  /\ exists doc,
       store (snd (post_request JSON.parse stringify2 axios_ok clock_ms
                     (request "GET" None None None) empty_world)) = [doc].
Proof.
  split.
  - exact (persisted_records JSON.parse stringify2 axios_timeout clock_timeout
             (request "GET" None None None) empty_world "GET" eq_refl).
  - destruct (persisted_records JSON.parse stringify2 axios_ok clock_ms
                (request "GET" None None None) empty_world "GET" eq_refl
                eq_refl (ex_intro _ "http://example.test/items" (conj eq_refl eq_refl))
                eq_refl) as (doc & out & Hs & _).
    exists doc. exact Hs.
Defined.

(** C1 as stated fails: the outbound call times out and the store is left
    as it was. *)
Lemma timeout_not_persisted :
  let d := request "GET" None None None in
  let w' := snd (post_request JSON.parse stringify2 axios_timeout clock_timeout
                   d empty_world) in
  axios_timeout (prepare JSON.parse d "get") = Rejected timeout_error
  /\ sent w' = [prepare JSON.parse d "get"]
  /\ store w' = store empty_world
  /\ length (store w') = 0%nat.
Proof. repeat split. Qed.

(** C3 as stated fails: a description without [method] is answered with
    HTTP 200, not with a client-error status. *)
Lemma missing_method_answered_200 :
  exists rep,
    fst (post_request JSON.parse stringify2 axios_ok clock_ms no_method empty_world)
    = inr rep
    /\ code rep = 200 /\ success (payload rep) = false.
Proof. eexists. repeat split. Qed.

Lemma failure_outcome_witness :
  exists out w',
    post_request JSON.parse stringify2 axios_timeout clock_timeout
      (request "GET" None None None) empty_world
    = (inr {| code := 200; payload := ExecFail out "timeout of 30000ms exceeded" |}, w')
    /\ status out = 0 /\ statusText out = "timeout of 30000ms exceeded"
    /\ headers out = ∅ /\ data out = VStr "timeout of 30000ms exceeded".
Proof.
  exact (failure_outcome JSON.parse stringify2 axios_timeout clock_timeout
           (request "GET" None None None) empty_world "GET" timeout_error
           eq_refl eq_refl).
Defined.

(** C6: the outbound call times out 30005 ms after dispatch; the outcome
    has status 0, the failure message as statusText and data and no headers,
    as the claim says, but its time is 0, not the elapsed time. *)
Theorem timeout_outcome :
  clock_timeout 1 - clock_timeout 0 = 30005
  /\ exists out w',
       post_request JSON.parse stringify2 axios_timeout clock_timeout
         (request "GET" None None None) empty_world
       = (inr {| code := 200;
                 payload := ExecFail out "timeout of 30000ms exceeded" |}, w')
       /\ status out = 0 /\ statusText out = "timeout of 30000ms exceeded"
       /\ headers out = ∅ /\ data out = VStr "timeout of 30000ms exceeded"
       /\ time out = 0.
Proof. split; [reflexivity|]. do 2 eexists. repeat split. Qed.

(** ** The history endpoints *)

#[local] Instance newer_first_total : Total newer_first.
Proof. intros a b. unfold newer_first. lia. Qed.

#[local] Instance newer_first_trans : Transitive newer_first.
Proof. intros a b c. unfold newer_first. lia. Qed.

Lemma world_eta w :
  {| store := store w; db_error := db_error w; ticks := ticks w;
     next_id := next_id w; sent := sent w |} = w.
Proof. destruct w; reflexivity. Qed.

Lemma get_history_ok w :
  db_error w = None ->
  get_history w =
  (inr {| code := 200;
          payload := HistoryList (take 50 (merge_sort newer_first (store w))) |}, w).
Proof.
  intros H. cbv [get_history try_catch bind find_sort_limit store_ready ret].
  rewrite H. reflexivity.
Qed.

(** Without equal timestamps a newest-first list is strictly decreasing. *)
Lemma newer_first_strict (l : list document) :
  StronglySorted newer_first l -> NoDup (createdAt <$> l) ->
  StronglySorted (fun a b => createdAt b < createdAt a) l.
Proof.
  induction 1 as [|a l Hs IH Hall]; intros Hnd; [constructor|].
  rewrite fmap_cons in Hnd. apply NoDup_cons in Hnd as [Hnin Hnd].
  constructor; [auto|].
  rewrite Forall_forall in *. intros b Hb.
  specialize (Hall b Hb). unfold newer_first in Hall.
  assert (createdAt b <> createdAt a).
  { intros E. apply Hnin. rewrite <- E. apply list_elem_of_fmap. eauto. }
  lia.
Qed.

(** C8, as the code has it: with N records in the store,
    [GET /api/history] answers with min(N, 50) of them; the answer followed by the records left out is the
    whole store sorted newest first, so the answer holds the most recently
    created records, newest first; and the order is strict when no two
    records share a creation timestamp. *)
Theorem history_newest_first w :
  db_error w = None ->
  exists history older,
    get_history w = (inr {| code := 200; payload := HistoryList history |}, w)
    /\ length history = Nat.min (length (store w)) 50
    /\ store w ≡ₚ history ++ older
    /\ StronglySorted newer_first (history ++ older)
    /\ (NoDup (createdAt <$> store w) ->
        StronglySorted (fun a b => createdAt b < createdAt a) history).
Proof.
  intros H.
  exists (take 50 (merge_sort newer_first (store w))),
         (drop 50 (merge_sort newer_first (store w))).
  split; [apply get_history_ok, H|].
  rewrite take_drop.
  assert (Hp : merge_sort newer_first (store w) ≡ₚ store w)
    by apply merge_sort_Permutation.
  assert (Hs : StronglySorted newer_first (merge_sort newer_first (store w)))
    by (apply StronglySorted_merge_sort; apply _).
  repeat split.
  - rewrite length_take, Hp. lia.
  - symmetry. exact Hp.
  - exact Hs.
  - intros Hnd. apply newer_first_strict.
    + rewrite <- (take_drop 50) in Hs. eapply StronglySorted_app_1_l, Hs.
    + rewrite <- Hp, <- (take_drop 50 (merge_sort _ _)), fmap_app in Hnd.
      apply NoDup_app in Hnd. apply Hnd.
Qed.

Lemma history_newest_first_witness :
  exists history older,
    get_history sixty_records
    = (inr {| code := 200; payload := HistoryList history |}, sixty_records)
    /\ length history = 50%nat
    /\ store sixty_records ≡ₚ history ++ older
    /\ StronglySorted newer_first (history ++ older)
    /\ (NoDup (createdAt <$> store sixty_records) ->
        StronglySorted (fun a b => createdAt b < createdAt a) history).
Proof. exact (history_newest_first sixty_records eq_refl). Defined.

(** C8 as stated fails: two records created in the same millisecond are
    answered one after the other, neither strictly newer. *)
Lemma history_tie_not_strict :
  exists a b,
    get_history same_millisecond
    = (inr {| code := 200; payload := HistoryList [a; b] |}, same_millisecond)
    /\ createdAt a = createdAt b.
Proof. do 2 eexists. split; reflexivity. Qed.

Example history_of_sixty :
  exists history,
    get_history sixty_records
    = (inr {| code := 200; payload := HistoryList history |}, sixty_records)
    /\ createdAt <$> history = Z.of_nat <$> reverse (seq 11 50).
Proof. eexists. split; [reflexivity|]. vm_compute. reflexivity. Qed.

Example history_of_three :
  get_history three_records
  = (inr {| code := 200;
            payload := HistoryList [stored 2 3000; stored 3 2000; stored 1 1000] |},
     three_records).
Proof. reflexivity. Qed.

Section ById.

Variable cast_id : string -> option N.

(** C10: when the path parameter cannot be cast to an ObjectId, both
    [GET /api/history/:id] and [DELETE /api/history/:id] answer with HTTP
    500 and [success: false], and the store is untouched. *)
Theorem malformed_id_500 id w :
  cast_id id = None ->
  exists msg,
    get_history_id cast_id id w = (inr {| code := 500; payload := Failure msg |}, w)
    /\ delete_history_id cast_id id w
       = (inr {| code := 500; payload := Failure msg |}, w)
    /\ success (Failure msg) = false.
Proof.
  intros H. exists (message (CastError id)).
  cbv [get_history_id delete_history_id try_catch bind findById
         findByIdAndDelete cast_ObjectId throw].
  rewrite H. repeat split.
Qed.

Lemma find_no_id o (l : list document) :
  Forall (fun doc => _id doc <> o) l ->
  find (has_id o) l = None /\ remove_first o l = l.
Proof.
  induction 1 as [|doc l Hd _ [IH1 IH2]]; [split; reflexivity|].
  cbn. unfold has_id at 1 3. apply N.eqb_neq in Hd. rewrite Hd.
  rewrite IH1, IH2. split; reflexivity.
Qed.

(** C9, as the code has it: for an id that casts to an ObjectId no stored
    record has, and a store that accepts operations,
    [DELETE /api/history/:id] answers with success and HTTP 200, and
    [GET /api/history/:id] answers with HTTP 404. *)
Theorem unknown_id id o w :
  cast_id id = Some o -> db_error w = None ->
  Forall (fun doc => _id doc <> o) (store w) ->
  delete_history_id cast_id id w
  = (inr {| code := 200; payload := Done "Request deleted from history" |}, w)
  /\ get_history_id cast_id id w
     = (inr {| code := 404; payload := Failure "Request not found" |}, w).
Proof.
  intros H Hdb Hno. destruct (find_no_id o (store w) Hno) as [Hf Hr].
  cbv [get_history_id delete_history_id try_catch bind findById
         findByIdAndDelete cast_ObjectId store_ready ret].
  rewrite H, Hdb, Hf, Hr, world_eta. split; reflexivity.
Qed.

End ById.

Lemma malformed_id_500_witness :
  exists msg,
    get_history_id ObjectId_of_string "abc" three_records
    = (inr {| code := 500; payload := Failure msg |}, three_records)
    /\ delete_history_id ObjectId_of_string "abc" three_records
       = (inr {| code := 500; payload := Failure msg |}, three_records)
    /\ success (Failure msg) = false.
Proof. exact (malformed_id_500 ObjectId_of_string "abc" three_records eq_refl). Defined.

Lemma unknown_id_witness :
  delete_history_id ObjectId_of_string "00000000000000000000002a" three_records
  = (inr {| code := 200; payload := Done "Request deleted from history" |}, three_records)
  /\ get_history_id ObjectId_of_string "00000000000000000000002a" three_records
     = (inr {| code := 404; payload := Failure "Request not found" |}, three_records).
Proof.
  apply (unknown_id ObjectId_of_string "00000000000000000000002a" 42%N three_records);
    [reflexivity | reflexivity |].
  repeat constructor; discriminate.
Defined.

(** C9 as stated fails: an id that is no ObjectId identifies no record, and
    [DELETE /api/history/:id] answers with HTTP 500 and [success: false]. *)
Lemma delete_malformed_id_500 :
  Forall (fun doc => ObjectId_of_string "abc" <> Some (_id doc)) (store three_records)
  /\ exists msg,
       delete_history_id ObjectId_of_string "abc" three_records
       = (inr {| code := 500; payload := Failure msg |}, three_records)
       /\ success (Failure msg) = false.
Proof.
  split; [repeat constructor; discriminate|].
  eexists. split; reflexivity.
Qed.

(** ** The response body *)




(** ** A request without a known [bodyType] *)

(** Outside the three encodings nothing is added to the configuration. *)
Lemma unknown_bodyType_no_body JSON_parse d m :
  bodyType_is d "raw" = false -> bodyType_is d "form-data" = false ->
  bodyType_is d "urlencoded" = false ->
  prepare JSON_parse d m =
  {| cfg_method := m; cfg_url := req_url d;
     cfg_headers := default ∅ (req_headers d);
     cfg_timeout := 30000; cfg_data := None |}.
Proof.
  intros H1 H2 H3. unfold prepare, add_body. rewrite H1, H2, H3.
  destruct (req_body d); [|reflexivity].
  destruct (_ && _); reflexivity.
Qed.

(** C5: a POST with a JSON body and no [bodyType] (or one outside the
    three encodings) is sent without its body, although the same request
    with [bodyType] raw carries the parsed body, and the record that is
    persisted for it gives raw as its [bodyType]. *)
Theorem missing_bodyType_drops_body :
  let d := request "POST" None (Some json_text) None in
  let d_raw := request "POST" None (Some json_text) (Some "raw") in
  let w' := snd (post_request JSON.parse stringify2 axios_ok clock_ms d empty_world) in
  cfg_data (prepare JSON.parse d "post") = None
  /\ cfg_data (prepare JSON.parse (request "POST" None (Some json_text) (Some "json")) "post")
     = None
  /\ cfg_data (prepare JSON.parse d_raw "post") = Some (VObj [("a", VNum 1)])
  /\ sent w' = [prepare JSON.parse d "post"]
  /\ exists doc, store w' = [doc] /\ bodyType doc = "raw" /\ body doc = json_text.
Proof.
  repeat split. eexists. repeat split.
Qed.

(** * Further properties of the handlers *)

Section Executions.

Variable JSON_parse : string -> option value.
Variable JSON_stringify : value -> string.
Variable axios : config -> axios_result.
Variable clock : nat -> Z.

#[local] Abbreviation run := (post_request JSON_parse JSON_stringify axios clock).

(** X1: the handler hands exactly one configuration to axios when [method]
    is present, whatever happens afterwards (no retry, also when saving
    fails), and none when [method] is missing. *)
Theorem outbound_calls d w :
  sent (snd (run d w)) =
  sent w ++ match req_method d with
            | Some m => [prepare JSON_parse d (toLowerCase m)]
            | None => []
            end.
Proof.
  destruct (req_method d) as [m|] eqn:H.
  - destruct (axios (prepare JSON_parse d (toLowerCase m))) as [r|e] eqn:Ha.
    + rewrite (post_resolved JSON_parse JSON_stringify axios clock d w m r H Ha). cbv zeta.
      destruct (save_error d w); reflexivity.
    + rewrite (post_rejected JSON_parse JSON_stringify axios clock d w m e H Ha).
      reflexivity.
  - rewrite (post_no_method JSON_parse JSON_stringify axios clock d w H).
    cbn. now rewrite app_nil_r.
Qed.

(** X2: the answer says [success: true] exactly when one record was
    added to the store, and then it carries that record's id, and the
    record's response is the outcome of the answer as the schema stores it;
    with [success: false] the store is as it was. *)
Theorem success_iff_persisted d w :
  exists rep,
    fst (run d w) = inr rep
    /\ if success (payload rep)
       then exists doc out,
              store (snd (run d w)) = store w ++ [doc]
              /\ payload rep = ExecOk out (_id doc)
              /\ doc_response doc = stored_outcome JSON_stringify out
       else store (snd (run d w)) = store w.
Proof.
  destruct (req_method d) as [m|] eqn:H.
  - destruct (axios (prepare JSON_parse d (toLowerCase m))) as [r|e] eqn:Ha.
    + rewrite (post_resolved JSON_parse JSON_stringify axios clock d w m r H Ha). cbv zeta.
      destruct (save_error d w); eexists; (split; [reflexivity|]); cbn.
      * reflexivity.
      * do 2 eexists. repeat split.
    + rewrite (post_rejected JSON_parse JSON_stringify axios clock d w m e H Ha).
      eexists. split; reflexivity.
  - rewrite (post_no_method JSON_parse JSON_stringify axios clock d w H).
    eexists. split; reflexivity.
Qed.

(** X3: when the outbound call resolved but the store rejects the write,
    the response that was received is not returned: the answer is
    [success: false] with status 0 and the store's message as statusText,
    data and error. *)
Theorem save_failure_hides_response d w m u r msg :
  req_method d = Some m -> nonempty m = true ->
  req_url d = Some u -> nonempty u = true ->
  axios (prepare JSON_parse d (toLowerCase m)) = Resolved r ->
  db_error w = Some msg ->
  exists out w',
    run d w = (inr {| code := 200; payload := ExecFail out msg |}, w')
    /\ status out = 0 /\ statusText out = msg /\ headers out = ∅
    /\ data out = VStr msg
    /\ store w' = store w.
Proof.
  intros H Hm Hu Hun Ha Hdb. rewrite (post_resolved JSON_parse JSON_stringify axios clock d w m r H Ha). cbv zeta.
  unfold save_error. rewrite H, Hm, Hu, Hun, Hdb. cbn [option_map].
  do 2 eexists. split; [reflexivity|]. repeat split.
Qed.

Lemma normalize_not_object v : typeof_object (normalize JSON_stringify v) = false.
Proof. unfold normalize. destruct (typeof_object v) eqn:E; [reflexivity | exact E]. Qed.

Lemma errorResponse_not_object e t :
  typeof_object (data (errorResponse JSON_stringify e t)) = false.
Proof.
  unfold errorResponse. destruct (err_response e) as [r|]; cbn [data]; [|reflexivity].
  destruct (truthy (rsp_data r)); [apply normalize_not_object | reflexivity].
Qed.

(** X4: the [data] of the outcome in the answer is never an object
    (nor an array, nor null), on any path of the handler. *)
Theorem outcome_data_not_object d w :
  exists rep out,
    fst (run d w) = inr rep
    /\ reply_outcome (payload rep) = Some out
    /\ typeof_object (data out) = false.
Proof.
  destruct (req_method d) as [m|] eqn:H.
  - destruct (axios (prepare JSON_parse d (toLowerCase m))) as [r|e] eqn:Ha.
    + rewrite (post_resolved JSON_parse JSON_stringify axios clock d w m r H Ha). cbv zeta.
      destruct (save_error d w); do 2 eexists;
        (split; [reflexivity|]); (split; [reflexivity|]).
      * apply errorResponse_not_object.
      * apply normalize_not_object.
    + rewrite (post_rejected JSON_parse JSON_stringify axios clock d w m e H Ha).
      do 2 eexists. split; [reflexivity|]. split; [reflexivity|].
      apply errorResponse_not_object.
  - rewrite (post_no_method JSON_parse JSON_stringify axios clock d w H).
    do 2 eexists. split; [reflexivity|]. split; [reflexivity|].
    apply errorResponse_not_object.
Qed.

(** X5: when the record is saved, the outcome carries the status, status
    text and headers of the response as they are, whatever the status code,
    and its time is the difference of the clock readings taken just before
    and just after the outbound call, which is not negative on a clock that
    does not run backwards. *)
Theorem success_outcome d w m u r :
  (forall i j, (i <= j)%nat -> clock i <= clock j) ->
  req_method d = Some m -> nonempty m = true ->
  req_url d = Some u -> nonempty u = true ->
  db_error w = None ->
  axios (prepare JSON_parse d (toLowerCase m)) = Resolved r ->
  exists out id w',
    run d w = (inr {| code := 200; payload := ExecOk out id |}, w')
    /\ status out = rsp_status r /\ statusText out = rsp_statusText r
    /\ headers out = rsp_headers r
    /\ time out = clock (1 + ticks w) - clock (ticks w) /\ 0 <= time out.
Proof.
  intros Hmono H Hm Hu Hun Hdb Ha. rewrite (post_resolved JSON_parse JSON_stringify axios clock d w m r H Ha). cbv zeta.
  unfold save_error. rewrite H, Hm, Hu, Hun, Hdb. cbn [option_map].
  do 3 eexists. split; [reflexivity|]. cbn [status statusText headers time responseData].
  repeat split. pose proof (Hmono (ticks w) (1 + ticks w)%nat). lia.
Qed.

(** X6: whenever the answer is [success: false], the time it reports is
    the earlier of two clock readings of the catch block minus the later
    one: it is never positive on a clock that does not run backwards,
    however long the outbound call took. *)
Theorem failed_execution_time d w rep out msg :
  (forall i j, (i <= j)%nat -> clock i <= clock j) ->
  fst (post_request JSON_parse JSON_stringify axios clock d w) = inr rep ->
  payload rep = ExecFail out msg ->
  time out <= 0.
Proof.
  intros Hmono.
  assert (Ht : forall e i, time (errorResponse JSON_stringify e
                                   (clock (1 + i) - clock (2 + i))) <= 0).
  { intros e i. pose proof (Hmono (1 + i) (2 + i))%nat.
    unfold errorResponse. destruct (err_response e); cbn [time]; lia. }
  destruct (req_method d) as [m|] eqn:H.
  - destruct (axios (prepare JSON_parse d (toLowerCase m))) as [r|e] eqn:Ha.
    + rewrite (post_resolved JSON_parse JSON_stringify axios clock d w m r H Ha). cbv zeta.
      destruct (save_error d w); cbn [fst]; intros [= <-]; cbn [payload];
        intros [= <- _]. apply (Ht e (2 + ticks w)%nat).
    + rewrite (post_rejected JSON_parse JSON_stringify axios clock d w m e H Ha).
      unfold caught. cbn [fst]. intros [= <-]. cbn [payload]. intros [= <- _].
      apply Ht.
  - rewrite (post_no_method JSON_parse JSON_stringify axios clock d w H).
    unfold caught. cbn [fst]. intros [= <-]. cbn [payload]. intros [= <- _].
    apply Ht.
Qed.

End Executions.

(** ** The dispatch and the record *)

Section Records.

Variable JSON_parse : string -> option value.
Variable JSON_stringify : value -> string.
Variable axios : config -> axios_result.
Variable clock : nat -> Z.

(** X7: the dispatch leaves the method, the url and the timeout of 30000
    alone, changes no header but [Content-Type], and sends as payload
    nothing but the body string or what [JSON.parse] made of it. *)
Theorem dispatch_preserves d m :
  let c := prepare JSON_parse d m in
  cfg_method c = m /\ cfg_url c = req_url d /\ cfg_timeout c = 30000
  /\ (forall k, k <> "Content-Type" ->
                cfg_headers c !! k = default ∅ (req_headers d) !! k)
  /\ (forall v, cfg_data c = Some v ->
                exists b, req_body d = Some b
                          /\ (v = VStr b \/ JSON_parse b = Some v)).
Proof.
  cbv zeta. unfold prepare, add_body.
  destruct (req_body d) as [b|]; cbn [cfg_method];
    [|repeat split; intros; discriminate].
  destruct (_ && _); [|repeat split; intros; discriminate].
  destruct (bodyType_is d "raw").
  { destruct (JSON_parse b) as [p|] eqn:Ep; cbn; repeat split.
    - intros k Hk. now apply lookup_insert_ne.
    - intros v [= <-]. exists b. split; [reflexivity | right; exact Ep].
    - intros v [= <-]. exists b. split; [reflexivity | left; reflexivity]. }
  destruct (bodyType_is d "form-data").
  { cbn; repeat split.
    - intros k Hk. now apply lookup_insert_ne.
    - intros v [= <-]. exists b. split; [reflexivity | left; reflexivity]. }
  destruct (bodyType_is d "urlencoded"); cbn; repeat split.
  - intros k Hk. now apply lookup_insert_ne.
  - intros v [= <-]. exists b. split; [reflexivity | left; reflexivity].
  - intros; discriminate.
Qed.

(** X8: a request whose method is not POST, PUT or PATCH, or whose body
    is missing or empty, is sent without payload and with the headers as
    supplied, whatever its [bodyType]. *)
Theorem no_body_sent d m :
  body_method m = false \/ req_body d = None \/ req_body d = Some "" ->
  prepare JSON_parse d (toLowerCase m) = base_config d (toLowerCase m).
Proof.
  unfold prepare, add_body, body_method, base_config. cbn [cfg_method].
  intros [H | [H | H]]; rewrite H.
  - destruct (req_body d); reflexivity.
  - reflexivity.
  - cbn [nonempty String.eqb negb]. now rewrite andb_false_r.
Qed.

(** X9: the record that is saved keeps [method] as the caller wrote it
    (the outbound call has it in lower case) and [url]; its headers are the
    caller's object after the dispatch wrote into it, or empty when the
    caller sent none; a missing body is saved as the empty string and a
    missing [bodyType] as raw; [createdAt] is read from the clock after the
    outbound call. *)
Theorem persisted_record d w m u r :
  req_method d = Some m -> nonempty m = true ->
  req_url d = Some u -> nonempty u = true ->
  db_error w = None ->
  axios (prepare JSON_parse d (toLowerCase m)) = Resolved r ->
  exists doc out w',
    post_request JSON_parse JSON_stringify axios clock d w
    = (inr {| code := 200; payload := ExecOk out (_id doc) |}, w')
    /\ store w' = store w ++ [doc]
    /\ doc_response doc = stored_outcome JSON_stringify out
    /\ method doc = Some m /\ url doc = Some u
    /\ doc_headers doc = match req_headers d with
                         | Some _ => cfg_headers (prepare JSON_parse d (toLowerCase m))
                         | None => ∅
                         end
    /\ body doc = default "" (req_body d)
    /\ bodyType doc = default "raw" (req_bodyType d)
    /\ createdAt doc = clock (2 + ticks w).
Proof.
  intros H Hm Hu Hun Hdb Ha.
  rewrite (post_resolved JSON_parse JSON_stringify axios clock d w m r H Ha).
  cbv zeta. unfold save_error. rewrite H, Hm, Hu, Hun, Hdb. cbn [option_map].
  eexists (historyRecord clock d _ _ w). do 2 eexists.
  split; [reflexivity|]. cbn. rewrite H, Hu. repeat split.
Qed.

(** X17: with [bodyType] form-data or urlencoded the body string is the
    payload as it is: it is not parsed, also when it is JSON text. *)
Theorem encoded_payload_as_is d m b :
  req_method d = Some m -> body_method m = true ->
  req_body d = Some b -> nonempty b = true ->
  req_bodyType d = Some "form-data" \/ req_bodyType d = Some "urlencoded" ->
  cfg_data (prepare JSON_parse d (toLowerCase m)) = Some (VStr b).
Proof.
  intros _ Hm Hb Hne [Ht | Ht].
  - apply (prepare_form_data JSON_parse d m b Hm Hb Hne Ht).
  - apply (prepare_urlencoded JSON_parse d m b Hm Hb Hne Ht).
Qed.

End Records.

(** ** The history endpoints, composed *)

Lemma get_history_id_found cast_id id o doc w :
  cast_id id = Some o -> db_error w = None ->
  find (has_id o) (store w) = Some doc ->
  get_history_id cast_id id w
  = (inr {| code := 200; payload := HistoryOne doc |}, w).
Proof.
  intros H Hdb Hf.
  cbv [get_history_id try_catch bind findById cast_ObjectId store_ready ret].
  rewrite H, Hdb, Hf. reflexivity.
Qed.

Lemma get_history_id_missing cast_id id o w :
  cast_id id = Some o -> db_error w = None ->
  find (has_id o) (store w) = None ->
  get_history_id cast_id id w
  = (inr {| code := 404; payload := Failure "Request not found" |}, w).
Proof.
  intros H Hdb Hf.
  cbv [get_history_id try_catch bind findById cast_ObjectId store_ready ret].
  rewrite H, Hdb, Hf. reflexivity.
Qed.

Lemma delete_history_id_ok cast_id id o w :
  cast_id id = Some o -> db_error w = None ->
  delete_history_id cast_id id w
  = (inr {| code := 200; payload := Done "Request deleted from history" |},
     {| store := remove_first o (store w); db_error := db_error w;
        ticks := ticks w; next_id := next_id w; sent := sent w |}).
Proof.
  intros H Hdb.
  cbv [delete_history_id try_catch bind findByIdAndDelete cast_ObjectId
         store_ready ret].
  rewrite H, Hdb. cbv beta iota. rewrite Hdb. reflexivity.
Qed.

Lemma find_unique o doc (l : list document) :
  NoDup (_id <$> l) -> doc ∈ l -> _id doc = o -> find (has_id o) l = Some doc.
Proof.
  induction l as [|x l IH]; intros Hnd Hin Hid; [now apply elem_of_nil in Hin|].
  rewrite fmap_cons in Hnd. apply NoDup_cons in Hnd as [Hx Hnd].
  cbn. unfold has_id at 1. apply elem_of_cons in Hin as [-> | Hin].
  - rewrite Hid, N.eqb_refl. reflexivity.
  - destruct (N.eqb_spec (_id x) o) as [E|E]; [|now apply IH].
    exfalso. apply Hx. rewrite E, <- Hid. apply list_elem_of_fmap. eauto.
Qed.

Lemma find_app_new o doc (l : list document) :
  Forall (fun old => _id old <> o) l -> _id doc = o ->
  find (has_id o) (l ++ [doc]) = Some doc.
Proof.
  intros Hl Hid. induction Hl as [|x l Hx _ IH]; cbn; unfold has_id at 1.
  - now rewrite Hid, N.eqb_refl.
  - apply N.eqb_neq in Hx. now rewrite Hx.
Qed.

(** Without two records of one id, what the deletion leaves is what has
    another id. *)
Lemma remove_first_elem o doc (l : list document) :
  NoDup (_id <$> l) ->
  doc ∈ remove_first o l <-> doc ∈ l /\ _id doc <> o.
Proof.
  induction l as [|x l IH]; intros Hnd; cbn.
  - split; [intros H; now apply elem_of_nil in H | intros [H _]; exact H].
  - rewrite fmap_cons in Hnd. apply NoDup_cons in Hnd as [Hx Hnd].
    unfold has_id at 1. destruct (N.eqb_spec (_id x) o) as [E|E].
    + rewrite elem_of_cons. split.
      * intros Hin. split; [now right|]. intros Hid. apply Hx.
        rewrite E, <- Hid. apply list_elem_of_fmap. eauto.
      * intros [[-> | Hin] Hid]; [congruence | exact Hin].
    + rewrite !elem_of_cons, (IH Hnd). split.
      * intros [-> | [Hin Hid]]; [split; [now left | exact E] | split; [now right | exact Hid]].
      * intros [[-> | Hin] Hid]; [now left | right; now split].
Qed.

Lemma newest_is_head doc (l : list document) :
  Forall (fun old => createdAt old < createdAt doc) l ->
  exists rest, merge_sort newer_first (l ++ [doc]) = doc :: rest.
Proof.
  intros Hl.
  pose proof (merge_sort_Permutation newer_first (l ++ [doc])) as Hp.
  pose proof (StronglySorted_merge_sort newer_first (l ++ [doc])) as Hs.
  destruct (merge_sort newer_first (l ++ [doc])) as [|x rest].
  - apply Permutation_nil_l in Hp. now destruct l.
  - exists rest. f_equal.
    assert (Hx : x ∈ l ++ [doc]) by (rewrite <- Hp; apply list_elem_of_here).
    apply elem_of_app in Hx as [Hx | Hx]; [|now apply list_elem_of_singleton in Hx].
    exfalso. rewrite Forall_forall in Hl. specialize (Hl x Hx).
    assert (Hd : doc ∈ x :: rest)
      by (rewrite Hp; apply elem_of_app; right; apply list_elem_of_here).
    apply elem_of_cons in Hd as [-> | Hd]; [lia|].
    apply StronglySorted_cons in Hs as [Hall _].
    rewrite Forall_forall in Hall. specialize (Hall doc Hd).
    unfold newer_first in Hall. lia.
Qed.

Section Composed.

Variable JSON_parse : string -> option value.
Variable JSON_stringify : value -> string.
Variable axios : config -> axios_result.
Variable clock : nat -> Z.
Variable cast_id : string -> option N.

(** X16: [GET /api/history] and [GET /api/history/:id] leave the world as
    it is, whatever they answer. *)
Theorem reads_leave_world id w :
  snd (get_history w) = w /\ snd (get_history_id cast_id id w) = w.
Proof.
  split.
  - destruct (db_error w) eqn:Hdb; [|now rewrite get_history_ok].
    cbv [get_history try_catch bind find_sort_limit store_ready ret].
    rewrite Hdb. reflexivity.
  - destruct (cast_id id) as [o|] eqn:H.
    + destruct (db_error w) eqn:Hdb.
      * cbv [get_history_id try_catch bind findById cast_ObjectId store_ready ret].
        rewrite H, Hdb. reflexivity.
      * destruct (find (has_id o) (store w)) as [doc|] eqn:Hf.
        -- now rewrite (get_history_id_found cast_id id o doc).
        -- now rewrite (get_history_id_missing cast_id id o).
    + cbv [get_history_id try_catch bind findById cast_ObjectId throw].
      rewrite H. reflexivity.
Qed.

(** X13: while the store rejects operations, the four history endpoints
    answer with HTTP 500 and the store's message, and change nothing. *)
Theorem store_failure_500 id o w msg :
  db_error w = Some msg -> cast_id id = Some o ->
  let answer := (inr {| code := 500; payload := Failure msg |}, w) in
  get_history w = answer /\ get_history_id cast_id id w = answer
  /\ delete_history_id cast_id id w = answer /\ delete_history w = answer.
Proof.
  intros Hdb H answer. subst answer.
  cbv [get_history get_history_id delete_history_id delete_history try_catch bind
         find_sort_limit findById findByIdAndDelete cast_ObjectId store_ready ret
         throw plain_error message].
  rewrite H. cbv beta iota. rewrite Hdb. repeat split.
Qed.

(** X12: after [DELETE /api/history] the store is empty:
    [GET /api/history] answers with the empty list and
    [GET /api/history/:id] with 404. *)
Theorem clear_then_empty id o w :
  db_error w = None -> cast_id id = Some o ->
  exists w',
    delete_history w = (inr {| code := 200; payload := Done "All history cleared" |}, w')
    /\ store w' = []
    /\ get_history w' = (inr {| code := 200; payload := HistoryList [] |}, w')
    /\ get_history_id cast_id id w'
       = (inr {| code := 404; payload := Failure "Request not found" |}, w').
Proof.
  intros Hdb H. eexists. split.
  - cbv [delete_history try_catch bind store_ready ret]. rewrite Hdb. reflexivity.
  - split; [reflexivity|]. split.
    + rewrite get_history_ok by exact Hdb. reflexivity.
    + now apply (get_history_id_missing cast_id id o).
Qed.

(** X14: in a store without two records of one id,
    [DELETE /api/history/:id] leaves exactly the records of another id;
    after it [GET /api/history/:id] answers 404 for that id, and deleting
    again answers with success and changes nothing. *)
Theorem delete_then_get id o w :
  cast_id id = Some o -> db_error w = None -> NoDup (_id <$> store w) ->
  let deleted := (inr {| code := 200; payload := Done "Request deleted from history" |})
                 : error + reply in
  let w' := snd (delete_history_id cast_id id w) in
  fst (delete_history_id cast_id id w) = deleted
  /\ (forall doc, doc ∈ store w' <-> doc ∈ store w /\ _id doc <> o)
  /\ get_history_id cast_id id w'
     = (inr {| code := 404; payload := Failure "Request not found" |}, w')
  /\ delete_history_id cast_id id w' = (deleted, w').
Proof.
  intros H Hdb Hnd deleted w'. subst deleted w'.
  rewrite (delete_history_id_ok cast_id id o w H Hdb). cbn [fst snd store].
  assert (Hno : Forall (fun doc => _id doc <> o) (remove_first o (store w))).
  { apply Forall_forall. intros doc Hin. now apply remove_first_elem in Hin. }
  destruct (find_no_id o _ Hno) as [Hf Hr].
  split; [reflexivity|]. split; [intros doc; now apply remove_first_elem|]. split.
  - now apply (get_history_id_missing cast_id id o).
  - rewrite (delete_history_id_ok cast_id id o) by assumption.
    cbn [store db_error ticks next_id sent]. now rewrite Hr.
Qed.

(** X15: in a store without two records of one id,
    [GET /api/history/:id] answers with the record of that id. *)
Theorem get_by_id_found id o doc w :
  cast_id id = Some o -> db_error w = None -> NoDup (_id <$> store w) ->
  doc ∈ store w -> _id doc = o ->
  get_history_id cast_id id w
  = (inr {| code := 200; payload := HistoryOne doc |}, w).
Proof.
  intros H Hdb Hnd Hin Hid.
  apply (get_history_id_found cast_id id o); [assumption..|].
  now apply find_unique.
Qed.

(** X10: the [historyId] a successful execution returns identifies the
    record it saved: [GET /api/history/:id] with it answers with the record
    of that id, whose response is the outcome that was returned as the
    schema stores it ([data] cast to String). *)
Theorem post_then_get_by_id d w m u r id :
  req_method d = Some m -> nonempty m = true ->
  req_url d = Some u -> nonempty u = true ->
  db_error w = None ->
  axios (prepare JSON_parse d (toLowerCase m)) = Resolved r ->
  cast_id id = Some (next_id w) ->
  Forall (fun old => _id old <> next_id w) (store w) ->
  exists out doc w',
    post_request JSON_parse JSON_stringify axios clock d w
    = (inr {| code := 200; payload := ExecOk out (next_id w) |}, w')
    /\ get_history_id cast_id id w'
       = (inr {| code := 200; payload := HistoryOne doc |}, w')
    /\ _id doc = next_id w
    /\ doc_response doc = stored_outcome JSON_stringify out.
Proof.
  intros H Hm Hu Hun Hdb Ha Hc Hfresh.
  rewrite (post_resolved JSON_parse JSON_stringify axios clock d w m r H Ha).
  cbv zeta. unfold save_error. rewrite H, Hm, Hu, Hun, Hdb. cbn [option_map].
  do 3 eexists. split; [reflexivity|]. split.
  - apply (get_history_id_found cast_id id (next_id w)); [exact Hc | reflexivity |].
    cbn [store]. now apply find_app_new.
  - split; reflexivity.
Qed.

(** X11: after a successful execution whose record is created later than
    every stored one, [GET /api/history] lists that record first. *)
Theorem post_then_history_head d w m u r :
  req_method d = Some m -> nonempty m = true ->
  req_url d = Some u -> nonempty u = true ->
  db_error w = None ->
  axios (prepare JSON_parse d (toLowerCase m)) = Resolved r ->
  Forall (fun old => createdAt old < clock (2 + ticks w)) (store w) ->
  exists doc out rest w',
    post_request JSON_parse JSON_stringify axios clock d w
    = (inr {| code := 200; payload := ExecOk out (_id doc) |}, w')
    /\ doc_response doc = stored_outcome JSON_stringify out
    /\ get_history w'
       = (inr {| code := 200; payload := HistoryList (doc :: rest) |}, w').
Proof.
  intros H Hm Hu Hun Hdb Ha Hold.
  rewrite (post_resolved JSON_parse JSON_stringify axios clock d w m r H Ha).
  cbv zeta. unfold save_error. rewrite H, Hm, Hu, Hun, Hdb. cbn [option_map].
  set (doc := historyRecord clock d _ _ w).
  destruct (newest_is_head doc (store w) Hold) as [rest Hrest].
  exists doc. eexists. exists (take 49 rest). eexists.
  split; [reflexivity|]. split; [reflexivity|].
  rewrite get_history_ok by reflexivity. cbn [store]. rewrite Hrest. reflexivity.
Qed.

End Composed.

(** ** The further properties on the examples *)

Lemma clock_ms_monotone i j : (i <= j)%nat -> clock_ms i <= clock_ms j.
Proof. unfold clock_ms. lia. Defined.

Lemma clock_timeout_monotone i j : (i <= j)%nat -> clock_timeout i <= clock_timeout j.
Proof. destruct i, j; cbn; lia. Defined.

Lemma save_failure_hides_response_witness :
  exists out w',
    post_request JSON.parse stringify2 axios_ok clock_ms
      (request "GET" None None None) store_down
    = (inr {| code := 200;
              payload := ExecFail out "buffering timed out after 10000ms" |}, w')
    /\ status out = 0 /\ statusText out = "buffering timed out after 10000ms"
    /\ headers out = ∅
    /\ data out = VStr "buffering timed out after 10000ms"
    /\ store w' = store store_down.
Proof.
  exact (save_failure_hides_response JSON.parse stringify2 axios_ok clock_ms
           (request "GET" None None None) store_down "GET"
           "http://example.test/items" ok_response
           "buffering timed out after 10000ms"
           eq_refl eq_refl eq_refl eq_refl eq_refl eq_refl).
Defined.

Lemma success_outcome_witness :
  exists out id w',
    post_request JSON.parse stringify2 axios_ok clock_ms
      (request "GET" None None None) empty_world
    = (inr {| code := 200; payload := ExecOk out id |}, w')
    /\ status out = 200 /\ statusText out = "OK"
    /\ headers out = rsp_headers ok_response
    /\ time out = 7 /\ 0 <= time out.
Proof.
  exact (success_outcome JSON.parse stringify2 axios_ok clock_ms
           (request "GET" None None None) empty_world "GET"
           "http://example.test/items" ok_response
           clock_ms_monotone eq_refl eq_refl eq_refl eq_refl eq_refl eq_refl).
Defined.

Lemma failed_execution_time_witness :
  clock_timeout 1 - clock_timeout 0 = 30005
  /\ exists out,
       fst (post_request JSON.parse stringify2 axios_timeout clock_timeout
              (request "GET" None None None) empty_world)
       = inr {| code := 200;
                payload := ExecFail out "timeout of 30000ms exceeded" |}
       /\ time out <= 0.
Proof.
  split; [reflexivity|]. eexists. split; [reflexivity|].
  exact (failed_execution_time JSON.parse stringify2 axios_timeout clock_timeout
           (request "GET" None None None) empty_world _ _ _
           clock_timeout_monotone eq_refl eq_refl).
Defined.

Lemma no_body_sent_witness :
  prepare JSON.parse (request "DELETE" None (Some json_text) (Some "raw")) "delete"
  = base_config (request "DELETE" None (Some json_text) (Some "raw")) "delete".
Proof.
  exact (no_body_sent JSON.parse
           (request "DELETE" None (Some json_text) (Some "raw")) "DELETE"
           (or_introl eq_refl)).
Defined.

Lemma persisted_record_witness :
  exists doc out w',
    post_request JSON.parse stringify2 axios_ok clock_ms
      (request "Post" (Some lowercase_type) (Some json_text) (Some "raw")) empty_world
    = (inr {| code := 200; payload := ExecOk out (_id doc) |}, w')
    /\ store w' = [doc]
    /\ doc_response doc = stored_outcome stringify2 out
    /\ method doc = Some "Post"
    /\ doc_headers doc !! "Content-Type" = Some "application/json"
    /\ doc_headers doc !! "content-type" = Some "text/plain".
Proof.
  destruct (persisted_record JSON.parse stringify2 axios_ok clock_ms
              (request "Post" (Some lowercase_type) (Some json_text) (Some "raw"))
              empty_world "Post" "http://example.test/items" ok_response
              eq_refl eq_refl eq_refl eq_refl eq_refl eq_refl)
    as (doc & out & w' & E & Hs & Hr & Hm & _ & Hh & _).
  exists doc, out, w'. rewrite Hh. repeat split; assumption || reflexivity.
Defined.

Lemma ids_of_three : NoDup (_id <$> store three_records).
Proof. apply (bool_decide_unpack _). vm_compute. exact I. Defined.

Lemma post_then_get_by_id_witness :
  exists out doc w',
    post_request JSON.parse stringify2 axios_ok clock_ms
      (request "GET" None None None) three_records
    = (inr {| code := 200; payload := ExecOk out 4%N |}, w')
    /\ get_history_id ObjectId_of_string "000000000000000000000004" w'
       = (inr {| code := 200; payload := HistoryOne doc |}, w')
    /\ _id doc = 4%N
    /\ doc_response doc = stored_outcome stringify2 out.
Proof.
  apply (post_then_get_by_id JSON.parse stringify2 axios_ok clock_ms
           ObjectId_of_string (request "GET" None None None) three_records
           "GET" "http://example.test/items" ok_response
           "000000000000000000000004");
    try reflexivity.
  repeat constructor; discriminate.
Defined.

Lemma post_then_history_head_witness :
  exists doc out rest w',
    post_request JSON.parse stringify2 axios_ok clock_late
      (request "GET" None None None) three_records
    = (inr {| code := 200; payload := ExecOk out (_id doc) |}, w')
    /\ doc_response doc = stored_outcome stringify2 out
    /\ get_history w'
       = (inr {| code := 200; payload := HistoryList (doc :: rest) |}, w').
Proof.
  apply (post_then_history_head JSON.parse stringify2 axios_ok clock_late
           (request "GET" None None None) three_records
           "GET" "http://example.test/items" ok_response);
    try reflexivity.
  repeat constructor.
Defined.

Lemma clear_then_empty_witness :
  exists w',
    delete_history three_records
    = (inr {| code := 200; payload := Done "All history cleared" |}, w')
    /\ store w' = []
    /\ get_history w' = (inr {| code := 200; payload := HistoryList [] |}, w')
    /\ get_history_id ObjectId_of_string "000000000000000000000002" w'
       = (inr {| code := 404; payload := Failure "Request not found" |}, w').
Proof.
  exact (clear_then_empty ObjectId_of_string "000000000000000000000002" 2%N
           three_records eq_refl eq_refl).
Defined.

Lemma store_failure_500_witness :
  let answer := (inr {| code := 500;
                        payload := Failure "buffering timed out after 10000ms" |},
                 store_down) in
  get_history store_down = answer
  /\ get_history_id ObjectId_of_string "000000000000000000000001" store_down = answer
  /\ delete_history_id ObjectId_of_string "000000000000000000000001" store_down = answer
  /\ delete_history store_down = answer.
Proof.
  exact (store_failure_500 ObjectId_of_string "000000000000000000000001" 1%N
           store_down "buffering timed out after 10000ms" eq_refl eq_refl).
Defined.

Lemma delete_then_get_witness :
  let id := "000000000000000000000002" in
  let w' := snd (delete_history_id ObjectId_of_string id three_records) in
  store w' = [stored 1 1000; stored 3 2000]
  /\ get_history_id ObjectId_of_string id w'
     = (inr {| code := 404; payload := Failure "Request not found" |}, w')
  /\ delete_history_id ObjectId_of_string id w'
     = (inr {| code := 200; payload := Done "Request deleted from history" |}, w').
Proof.
  destruct (delete_then_get ObjectId_of_string "000000000000000000000002" 2%N
              three_records eq_refl eq_refl ids_of_three) as (_ & _ & Hg & Hd).
  split; [reflexivity|]. split; [exact Hg | exact Hd].
Defined.

Lemma get_by_id_found_witness :
  get_history_id ObjectId_of_string "000000000000000000000002" three_records
  = (inr {| code := 200; payload := HistoryOne (stored 2 3000) |}, three_records).
Proof.
  apply (get_by_id_found ObjectId_of_string "000000000000000000000002" 2%N
           (stored 2 3000) three_records eq_refl eq_refl ids_of_three);
    [|reflexivity].
  apply elem_of_cons. right. apply list_elem_of_here.
Defined.

Lemma encoded_payload_as_is_witness :
  cfg_data (prepare JSON.parse
              (request "PUT" None (Some json_text) (Some "urlencoded")) "put")
  = Some (VStr json_text).
Proof.
  exact (encoded_payload_as_is JSON.parse
           (request "PUT" None (Some json_text) (Some "urlencoded")) "PUT" json_text
           eq_refl eq_refl eq_refl eq_refl (or_intror eq_refl)).
Defined.
